(** * Message collector service and persona update protocol

    A shallow embedding of [services/message_collector.py] (class
    [MessageCollectorService]) and of the interfaces of [core/interfaces.py]
    that the persona update protocol is built on.

    Conventions of the embedding:
    - a Python [Dict[str, Any]] is a [gmap string value];
    - an [async def] method is a computation in the monad [M]: it receives the
      world (the service's attributes, the injected database manager, the
      clock) and gives back an outcome (a returned value or a raised
      exception) with the world it leaves behind.  Attributes mutated before
      an exception is raised stay mutated, as they do on a Python object;
    - the database manager is an interface (a type class); every call made
      through it is appended to a ghost trace together with the exception it
      raised, if any, so that "which storage calls were made" is observable;
    - [time.time()] reads an oracle: the n-th reading is [clock n].  Readings
      are integers (seconds); float rounding is outside of the model;
    - [asyncio.gather] over storage writes runs the writes in list order, each
      one atomically; every write runs even when an earlier one raised, and
      the first exception in list order is the one that is propagated;
    - the calls of the service run one after the other: a call is not
      interleaved with another one at its [await] points.  The one schedule
      with an overlap that is modelled, a call running while a flush is
      suspended at its [await], is spelled out in [overlapped];
    - [logger] calls have no effect on the modelled world. *)

From Stdlib Require Import ZArith List String Lia.
From stdpp Require Import gmap strings list fin_maps.

Local Open Scope Z_scope.
Local Open Scope string_scope.
Local Open Scope list_scope.

(** ** Python values and exceptions *)

#[warnings="-register-all"]
Inductive value :=
| VNone
| VBool (b : bool)
| VInt (z : Z)
| VStr (s : string)
| VList (l : list value)
| VDict (d : gmap string value).

Abbreviation Dict := (gmap string value).

(** The exception classes that occur: the two of [exceptions.py] that the
    service raises, and any other subclass of [Exception] that a collaborator
    may raise.  What [except Exception] does not catch (cancellation, exit)
    is not modelled. *)
Inductive exn :=
| DataStorageError (msg : string)
| MessageCollectionError (msg : string)
| Exception (msg : string).

(** [str(e)] *)
Definition str (e : exn) : string :=
  match e with
  | DataStorageError msg | MessageCollectionError msg | Exception msg => msg
  end.

Inductive outcome (A : Type) :=
| Return (a : A)
| Raise (e : exn).
Arguments Return {A} a.
Arguments Raise {A} e.

Definition raised {A} (r : outcome A) : option exn :=
  match r with Return _ => None | Raise e => Some e end.

(** ** The database manager (Storage Gateway) interface *)

Module DatabaseManager.

(** The methods [MessageCollectorService] calls on its [database_manager];
    [DB] is the state of the storage behind it. *)
Class t (DB : Type) := {
  save_raw_message : Dict -> DB -> outcome unit * DB;
  get_unprocessed_messages : option Z -> DB -> outcome (list Dict) * DB;
  add_filtered_message : Dict -> DB -> outcome unit * DB;
  mark_messages_processed : list Z -> DB -> outcome unit * DB;
  get_filtered_messages_for_learning : option Z -> DB -> outcome (list Dict) * DB;
  get_recent_filtered_messages : string -> Z -> DB -> outcome (list Dict) * DB;
  get_messages_statistics : DB -> outcome Dict * DB;
  export_messages_learning_data : DB -> outcome Dict * DB;
  clear_all_messages_data : DB -> outcome unit * DB;
  create_learning_batch : string -> DB -> outcome Z * DB;
  update_learning_batch : Z -> Dict -> DB -> outcome unit * DB
}.

(** A call made on the database manager, with its arguments. *)
Inductive call :=
| SaveRawMessage (msg : Dict)
| GetUnprocessedMessages (limit : option Z)
| AddFilteredMessage (filtered_data : Dict)
| MarkMessagesProcessed (message_ids : list Z)
| GetFilteredMessagesForLearning (limit : option Z)
| GetRecentFilteredMessages (group_id : string) (limit : Z)
| GetMessagesStatistics
| ExportMessagesLearningData
| ClearAllMessagesData
| CreateLearningBatch (batch_name : string)
| UpdateLearningBatch (batch_id : Z) (kwargs : Dict).

(** One entry of the trace: the call and the exception it raised, if any. *)
Record event := Event { ev_call : call; ev_error : option exn }.

End DatabaseManager.

Abbreviation event := DatabaseManager.event.
Abbreviation Event := DatabaseManager.Event.
Abbreviation ev_call := DatabaseManager.ev_call.
Abbreviation ev_error := DatabaseManager.ev_error.

(** An event of a call that returned normally. *)
Definition ok (c : DatabaseManager.call) : event := Event c None.

Definition ev_ok (ev : event) : Prop := ev_error ev = None.

(** ** A reference storage *)

Module MemoryStore.

(** Modelled from the spec: the Storage Gateway ([database_manager.py] is
    not among the sources).  Raw messages and filtered messages are kept in
    arrival order, [processed] holds the positions of the raw messages
    marked as processed, learning batches are numbered from 1.  [budget]
    injects unavailability: [Some n] lets [n] more calls succeed, after
    which every call raises and changes nothing; [None] never fails. *)
Record t := mk {
  raw : list Dict;
  processed : list Z;
  filtered : list Dict;
  batches : list (string * Dict);
  budget : option nat
}.

Definition empty (budget : option nat) : t := mk [] [] [] [] budget.

Definition unavailable : exn := Exception "storage unavailable".

(** Charge one call to the budget, or raise when it is used up. *)
Definition guarded {A} (body : t -> A * t) (d : t) : outcome A * t :=
  match budget d with
  | Some O => (Raise unavailable, d)
  | Some (S n) =>
      let '(a, d') := body (mk (raw d) (processed d) (filtered d) (batches d) (Some n)) in
      (Return a, d')
  | None => let '(a, d') := body d in (Return a, d')
  end.

Definition limited {A} (limit : option Z) (l : list A) : list A :=
  match limit with
  | None => l
  | Some n => take (Z.to_nat n) l
  end.

Definition unprocessed (d : t) : list Dict :=
  map snd
    (List.filter (fun im => negb (bool_decide (im.1 ∈ processed d)))
                 (imap (fun i m => (Z.of_nat i, m)) (raw d))).

Definition in_group (group_id : string) (m : Dict) : bool :=
  match m !! "group_id" with
  | Some (VStr g) => String.eqb g group_id
  | _ => false
  end.

#[global] Instance database_manager : DatabaseManager.t t := {|
  DatabaseManager.save_raw_message msg :=
    guarded (fun d => (tt, mk (raw d ++ [msg]) (processed d) (filtered d) (batches d) (budget d)));
  DatabaseManager.get_unprocessed_messages limit :=
    guarded (fun d => (limited limit (unprocessed d), d));
  DatabaseManager.add_filtered_message filtered_data :=
    guarded (fun d => (tt, mk (raw d) (processed d) (filtered d ++ [filtered_data]) (batches d) (budget d)));
  DatabaseManager.mark_messages_processed message_ids :=
    guarded (fun d => (tt, mk (raw d) (processed d ++ message_ids) (filtered d) (batches d) (budget d)));
  DatabaseManager.get_filtered_messages_for_learning limit :=
    guarded (fun d => (limited limit (filtered d), d));
  DatabaseManager.get_recent_filtered_messages group_id limit :=
    guarded (fun d => (take (Z.to_nat limit) (rev (List.filter (in_group group_id) (filtered d))), d));
  DatabaseManager.get_messages_statistics :=
    guarded (fun d =>
      (<["raw_messages" := VInt (Z.of_nat (length (raw d)))]>
         (<["filtered_messages" := VInt (Z.of_nat (length (filtered d)))]> ∅), d));
  DatabaseManager.export_messages_learning_data :=
    guarded (fun d =>
      (<["raw_messages" := VList (map VDict (raw d))]>
         (<["filtered_messages" := VList (map VDict (filtered d))]> ∅), d));
  DatabaseManager.clear_all_messages_data :=
    guarded (fun d => (tt, mk [] [] [] [] (budget d)));
  DatabaseManager.create_learning_batch batch_name :=
    guarded (fun d =>
      (Z.of_nat (S (length (batches d))),
       mk (raw d) (processed d) (filtered d) (batches d ++ [(batch_name, ∅)]) (budget d)));
  DatabaseManager.update_learning_batch batch_id kwargs :=
    guarded (fun d =>
      (tt, mk (raw d) (processed d) (filtered d)
              (alter (fun b => (b.1, kwargs ∪ b.2)) (Z.to_nat (batch_id - 1)) (batches d))
              (budget d)))
|}.

End MemoryStore.

(** ** The service *)

Module MessageCollectorService.
Section Service.

Context {DB : Type} `{!DatabaseManager.t DB}.

(** The attributes of the service object, its collaborators and the ghost
    trace. *)
Record World := mkWorld {
  _message_cache : list Dict;
  _cache_size_limit : Z;
  _last_flush_time : Z;
  _flush_interval : Z;
  config : Dict;              (* what [self.config.to_dict()] returns *)
  database_manager : DB;
  calls : list event;         (* ghost: storage calls made so far *)
  clock : nat -> Z;           (* the readings [time.time()] will give *)
  ticks : nat                 (* how many readings were taken *)
}.

Definition M (A : Type) : Type := World -> outcome A * World.

Definition ret {A} (a : A) : M A := fun w => (Return a, w).

Definition raise {A} (e : exn) : M A := fun w => (Raise e, w).

Definition bind {A B} (m : M A) (k : A -> M B) : M B := fun w =>
  match m w with
  | (Return a, w') => k a w'
  | (Raise e, w') => (Raise e, w')
  end.

(** [try: body  except Exception as e: handler e] *)
Definition try_except {A} (body : M A) (handler : exn -> M A) : M A := fun w =>
  match body w with
  | (Return a, w') => (Return a, w')
  | (Raise e, w') => handler e w'
  end.

Notation "x <- m ;; k" := (bind m (fun x => k))
  (at level 100, m at next level, right associativity).
Notation "m ;; k" := (bind m (fun _ => k))
  (at level 100, right associativity).

(** *** Attribute access *)

Definition get {A} (field : World -> A) : M A := fun w => (Return (field w), w).

Definition set_message_cache (c : list Dict) : M unit := fun w =>
  (Return tt,
   mkWorld c (_cache_size_limit w) (_last_flush_time w) (_flush_interval w)
           (config w) (database_manager w) (calls w) (clock w) (ticks w)).

Definition set_last_flush_time (t : Z) : M unit := fun w =>
  (Return tt,
   mkWorld (_message_cache w) (_cache_size_limit w) t (_flush_interval w)
           (config w) (database_manager w) (calls w) (clock w) (ticks w)).

(** [time.time()]: the next reading of the clock. *)
Definition time_time : M Z := fun w =>
  (Return (clock w (ticks w)),
   mkWorld (_message_cache w) (_cache_size_limit w) (_last_flush_time w)
           (_flush_interval w) (config w) (database_manager w) (calls w)
           (clock w) (S (ticks w))).

(** [await self.database_manager.<method>(...)]: the method runs on the
    storage state and the call is recorded in the trace. *)
Definition db_call {A} (c : DatabaseManager.call)
    (method : DB -> outcome A * DB) : M A := fun w =>
  let '(r, d) := method (database_manager w) in
  (r,
   mkWorld (_message_cache w) (_cache_size_limit w) (_last_flush_time w)
           (_flush_interval w) (config w) d
           (calls w ++ [Event c (raised r)]) (clock w) (ticks w)).

(** [await asyncio.gather] over the list [tasks] *)
Fixpoint gather {A} (tasks : list (M A)) : M (list A) :=
  match tasks with
  | [] => ret []
  | task :: rest => fun w =>
      let '(r, w1) := task w in
      let '(rs, w2) := gather rest w1 in
      (match r, rs with
       | Raise e, _ => Raise e
       | Return _, Raise e => Raise e
       | Return a, Return l => Return (a :: l)
       end, w2)
  end.

(** *** [__init__] *)

Definition __init__ (config : Dict) (database_manager : DB)
    (clock : nat -> Z) : World :=
  mkWorld [] 100 (clock 0%nat) 30 config database_manager [] clock 1.

(** *** [_flush_message_cache] *)

Definition save (msg : Dict) : M unit :=
  db_call (DatabaseManager.SaveRawMessage msg)
          (DatabaseManager.save_raw_message msg).

Definition _flush_message_cache : M unit :=
  cache <- get _message_cache ;;
  match cache with
  | [] => ret tt
  | _ :: _ =>
      try_except
        (let tasks := map save cache in
         gather tasks ;;
         set_message_cache [] ;;
         now <- time_time ;;
         set_last_flush_time now)
        (fun e => raise (DataStorageError ("消息缓存刷新失败: " +:+ str e)))
  end.

(** *** [collect_message] *)

Definition required_fields : list string := ["sender_id"; "message"; "timestamp"].

(** The first [field] of [required_fields] with [field not in message_data]. *)
Definition missing_field (message_data : Dict) : option string :=
  List.find (fun field => bool_decide (message_data !! field = None))
            required_fields.

(** [len(self._message_cache) >= self._cache_size_limit or
     time.time() - self._last_flush_time > self._flush_interval];
    [or] does not evaluate its right operand when the left one is true. *)
Definition flush_due : M bool :=
  cache <- get _message_cache ;;
  limit <- get _cache_size_limit ;;
  if Z.of_nat (length cache) >=? limit then ret true
  else
    now <- time_time ;;
    last <- get _last_flush_time ;;
    interval <- get _flush_interval ;;
    ret (now - last >? interval).

Definition collect_message (message_data : Dict) : M bool :=
  try_except
    (match missing_field message_data with
     | Some _ => ret false
     | None =>
         cache <- get _message_cache ;;
         set_message_cache (cache ++ [message_data]) ;;
         due <- flush_due ;;
         (if due then _flush_message_cache else ret tt) ;;
         ret true
     end)
    (fun e => raise (MessageCollectionError ("消息收集失败: " +:+ str e))).

(** *** The storage-backed operations *)

Definition get_unprocessed_messages (limit : option Z) : M (list Dict) :=
  try_except
    (_flush_message_cache ;;
     messages <- db_call (DatabaseManager.GetUnprocessedMessages limit)
                         (DatabaseManager.get_unprocessed_messages limit) ;;
     ret messages)
    (fun e => raise (DataStorageError ("获取未处理消息失败: " +:+ str e))).

Definition add_filtered_message (filtered_data : Dict) : M bool :=
  try_except
    (db_call (DatabaseManager.AddFilteredMessage filtered_data)
             (DatabaseManager.add_filtered_message filtered_data) ;;
     ret true)
    (fun e => raise (DataStorageError ("添加筛选消息失败: " +:+ str e))).

Definition mark_messages_processed (message_ids : list Z) : M unit :=
  try_except
    (match message_ids with
     | [] => ret tt
     | _ :: _ =>
         db_call (DatabaseManager.MarkMessagesProcessed message_ids)
                 (DatabaseManager.mark_messages_processed message_ids)
     end)
    (fun e => raise (DataStorageError ("标记消息处理状态失败: " +:+ str e))).

Definition get_filtered_messages_for_learning (limit : option Z) : M (list Dict) :=
  try_except
    (messages <- db_call (DatabaseManager.GetFilteredMessagesForLearning limit)
                         (DatabaseManager.get_filtered_messages_for_learning limit) ;;
     ret messages)
    (fun e => raise (DataStorageError ("获取学习消息失败: " +:+ str e))).

Definition get_recent_filtered_messages (group_id : string) (limit : Z) : M (list Dict) :=
  try_except
    (messages <- db_call (DatabaseManager.GetRecentFilteredMessages group_id limit)
                         (DatabaseManager.get_recent_filtered_messages group_id limit) ;;
     ret messages)
    (fun _ => ret []).

Definition get_statistics : M Dict :=
  try_except
    (_flush_message_cache ;;
     statistics <- db_call DatabaseManager.GetMessagesStatistics
                           DatabaseManager.get_messages_statistics ;;
     cache <- get _message_cache ;;
     ret (<["cache_size" := VInt (Z.of_nat (length cache))]> statistics))
    (fun _ => ret ∅).

Definition export_learning_data : M Dict :=
  try_except
    (_flush_message_cache ;;
     learning_data <- db_call DatabaseManager.ExportMessagesLearningData
                              DatabaseManager.export_messages_learning_data ;;
     cfg <- get config ;;
     ret (<["config" := VDict cfg]> learning_data))
    (fun e => raise (DataStorageError ("导出学习数据失败: " +:+ str e))).

Definition clear_all_data : M unit :=
  try_except
    (_flush_message_cache ;;
     db_call DatabaseManager.ClearAllMessagesData
             DatabaseManager.clear_all_messages_data ;;
     set_message_cache [])
    (fun e => raise (DataStorageError ("清空数据失败: " +:+ str e))).

Definition save_state : M unit :=
  try_except _flush_message_cache (fun _ => ret tt).

Definition create_learning_batch (batch_name : string) : M Z :=
  try_except
    (batch_id <- db_call (DatabaseManager.CreateLearningBatch batch_name)
                         (DatabaseManager.create_learning_batch batch_name) ;;
     ret batch_id)
    (fun e => raise (DataStorageError ("创建学习批次失败: " +:+ str e))).

Definition update_learning_batch (batch_id : Z) (kwargs : Dict) : M unit :=
  try_except
    (db_call (DatabaseManager.UpdateLearningBatch batch_id kwargs)
             (DatabaseManager.update_learning_batch batch_id kwargs))
    (fun e => raise (DataStorageError ("更新学习批次失败: " +:+ str e))).

(** *** Observations used in the statements *)

(** The storage calls made between world [w] and a later world [w']. *)
Definition new_calls (w w' : World) : list event :=
  drop (length (calls w)) (calls w').

(** Some storage call made while [m] ran from [w] raised. *)
Definition storage_fault_in {A} (m : M A) (w : World) : Prop :=
  Exists (fun ev => ev_error ev <> None) (new_calls w (m w).2).

(** [m], run from [w], raises [DataStorageError]. *)
Definition raises_DataStorageError {A} (m : M A) (w : World) : Prop :=
  exists msg, (m w).1 = Raise (DataStorageError msg).

(** Whenever a storage call made by [op] raises, [op] raises
    [DataStorageError]. *)
Definition propagates_storage_fault {A} (op : M A) : Prop :=
  forall w, storage_fault_in op w -> raises_DataStorageError op w.

(** A sequence of [collect_message] calls; the outcomes are dropped, the
    world is threaded through. *)
Definition collect_all (messages : list Dict) (w : World) : World :=
  fold_left (fun w message_data => (collect_message message_data w).2) messages w.

(** The buffer has reached the size limit once [message_data] is appended. *)
Definition size_reached (w : World) (message_data : Dict) : Prop :=
  _cache_size_limit w <= Z.of_nat (length (_message_cache w ++ [message_data])).

(** The next clock reading is more than the interval after the last flush. *)
Definition interval_elapsed (w : World) : Prop :=
  _flush_interval w < clock w (ticks w) - _last_flush_time w.

(** Everything but the storage state and the trace is the same. *)
Definition same_attributes (w w' : World) : Prop :=
  _message_cache w' = _message_cache w /\
  _cache_size_limit w' = _cache_size_limit w /\
  _last_flush_time w' = _last_flush_time w /\
  _flush_interval w' = _flush_interval w /\
  config w' = config w /\
  clock w' = clock w /\
  ticks w' = ticks w.

(** The settings no method assigns to. *)
Definition same_settings (w w' : World) : Prop :=
  _cache_size_limit w' = _cache_size_limit w /\
  _flush_interval w' = _flush_interval w /\
  config w' = config w /\
  clock w' = clock w.

(** Storage that "faithfully returns what was saved": from a [healthy]
    state a write succeeds, leaves the storage healthy and makes the
    message [stored] without losing another one, and the unlimited query of
    unprocessed messages returns every [stored] message. *)
Record faithful_storage (healthy : DB -> Prop) (stored : DB -> Dict -> Prop) : Prop := {
  faithful_save : forall msg d, healthy d ->
    exists d', DatabaseManager.save_raw_message msg d = (Return tt, d') /\
               healthy d' /\ stored d' msg /\
               forall msg', stored d msg' -> stored d' msg';
  faithful_query : forall d, healthy d ->
    exists l d', DatabaseManager.get_unprocessed_messages None d = (Return l, d') /\
                 forall msg, stored d msg -> msg ∈ l
}.

(** *** Sequences of calls *)

(** A call of a public method of the service, with its arguments. *)
Inductive operation :=
| OpCollectMessage (message_data : Dict)
| OpGetUnprocessedMessages (limit : option Z)
| OpAddFilteredMessage (filtered_data : Dict)
| OpMarkMessagesProcessed (message_ids : list Z)
| OpGetFilteredMessagesForLearning (limit : option Z)
| OpGetRecentFilteredMessages (group_id : string) (limit : Z)
| OpGetStatistics
| OpExportLearningData
| OpClearAllData
| OpSaveState
| OpCreateLearningBatch (batch_name : string)
| OpUpdateLearningBatch (batch_id : Z) (kwargs : Dict).

(** The world a call leaves behind, whatever it returns or raises. *)
Definition perform (op : operation) (w : World) : World :=
  match op with
  | OpCollectMessage message_data => (collect_message message_data w).2
  | OpGetUnprocessedMessages limit => (get_unprocessed_messages limit w).2
  | OpAddFilteredMessage filtered_data => (add_filtered_message filtered_data w).2
  | OpMarkMessagesProcessed message_ids => (mark_messages_processed message_ids w).2
  | OpGetFilteredMessagesForLearning limit =>
      (get_filtered_messages_for_learning limit w).2
  | OpGetRecentFilteredMessages group_id limit =>
      (get_recent_filtered_messages group_id limit w).2
  | OpGetStatistics => (get_statistics w).2
  | OpExportLearningData => (export_learning_data w).2
  | OpClearAllData => (clear_all_data w).2
  | OpSaveState => (save_state w).2
  | OpCreateLearningBatch batch_name => (create_learning_batch batch_name w).2
  | OpUpdateLearningBatch batch_id kwargs => (update_learning_batch batch_id kwargs w).2
  end.

Definition perform_all (ops : list operation) (w : World) : World :=
  fold_left (fun w op => perform op w) ops w.

(** The methods whose body awaits [_flush_message_cache]. *)
Definition flushes (op : operation) : bool :=
  match op with
  | OpCollectMessage _ | OpGetUnprocessedMessages _ | OpGetStatistics
  | OpExportLearningData | OpClearAllData | OpSaveState => true
  | _ => false
  end.

(** The messages that the calls in [ops] append to the buffer: the arguments
    of [collect_message] that have every required field. *)
Definition accepted (ops : list operation) : list Dict :=
  omap (fun op =>
          match op with
          | OpCollectMessage message_data =>
              match missing_field message_data with
              | None => Some message_data
              | Some _ => None
              end
          | _ => None
          end) ops.

(** The message of a [save_raw_message] call. *)
Definition written (ev : event) : option Dict :=
  match ev_call ev with
  | DatabaseManager.SaveRawMessage msg => Some msg
  | _ => None
  end.

(** The messages of the [save_raw_message] calls of a trace, in order. *)
Definition saved (evs : list event) : list Dict := omap written evs.

(** No [save_raw_message] call of the trace raised. *)
Definition writes_ok (evs : list event) : Prop :=
  Forall (fun ev => is_Some (written ev) -> ev_error ev = None) evs.

(** The shape of every step of the service from [w] to [w'], where
    [buffer] is the buffer before a flush, if any: the writes of that flush
    come first, then calls that are not writes; either there is no flush and
    the buffer stays, or all the writes of the buffer return and the buffer
    is empty, or one of them raises and the buffer stays. *)
Definition transition (buffer : list Dict) (w w' : World) : Prop :=
  same_settings w w' /\
  exists evs rest,
    calls w' = calls w ++ evs ++ rest /\
    Forall (fun ev => written ev = None) rest /\
    (length rest <= 1)%nat /\
    ((evs = [] /\ _message_cache w' = buffer /\
      _last_flush_time w' = _last_flush_time w)
     \/
     (map ev_call evs = map DatabaseManager.SaveRawMessage buffer /\
      Forall ev_ok evs /\ _message_cache w' = [])
     \/
     (map ev_call evs = map DatabaseManager.SaveRawMessage buffer /\
      Exists (fun ev => ev_error ev <> None) evs /\ rest = [] /\
      _message_cache w' = buffer /\
      _last_flush_time w' = _last_flush_time w)).

(** The storage is down and stays down: from a [down] state every write
    raises and leaves the storage [down]. *)
Definition outage (down : DB -> Prop) : Prop :=
  forall msg (d : DB), down d ->
    exists e d', DatabaseManager.save_raw_message msg d = (Raise e, d') /\ down d'.

(** *** A call that overlaps a flush *)

(** What [_flush_message_cache] does once [await asyncio.gather] has
    delivered the joint outcome [r] of the writes: it clears the buffer as
    it is then and resets the timer, or raises [DataStorageError]. *)
Definition flush_resume (r : outcome (list unit)) : M unit :=
  try_except
    (match r with
     | Return _ =>
         set_message_cache [] ;;
         now <- time_time ;;
         set_last_flush_time now
     | Raise e => raise e
     end)
    (fun e => raise (DataStorageError ("消息缓存刷新失败: " +:+ str e))).

(** A flush of a non-empty buffer during which another call of the service
    runs: the flush builds its tasks from the buffer and awaits them, the
    writes are made, the call [other] runs while the flush is still
    suspended, and then the flush is resumed.  The outcomes of the flush and
    of [other] are returned. *)
Definition overlapped {A} (other : M A) (w : World) : (outcome unit * outcome A) * World :=
  let '(r, w1) := gather (map save (_message_cache w)) w in
  let '(a, w2) := other w1 in
  let '(u, w3) := flush_resume r w2 in
  ((u, a), w3).

End Service.
End MessageCollectorService.

Import MessageCollectorService.

(** ** Concrete worlds *)

Module Examples.

Definition message (n : Z) : Dict :=
  <["sender_id" := VStr "u1"]>
    (<["message" := VStr "hello"]> (<["timestamp" := VInt n]> ∅)).

Definition messages (n : nat) : list Dict := map message (seqZ 1 (Z.of_nat n)).

(** A clock that stands still: no delay between any two readings. *)
Definition still : nat -> Z := fun _ => 1700000000.

(** A clock that advances by a minute from one reading to the next. *)
Definition minutes : nat -> Z := fun n => 1700000000 + 60 * Z.of_nat n.

(** A fresh service on the reference storage. *)
Definition service (budget : option nat) (clk : nat -> Z) : @World MemoryStore.t :=
  __init__ ∅ (MemoryStore.empty budget) clk.

(** A fresh service on a storage that never fails. *)
Definition steady : @World MemoryStore.t := service None still.

(** A fresh service on a storage that fails after [n] calls. *)
Definition flaky (n : nat) : @World MemoryStore.t := service (Some n) still.

End Examples.

(** ** The persona update protocol *)

Module PersonaManager.

(** [MessageData] of [core/interfaces.py]; [timestamp] in seconds. *)
Record MessageData := {
  sender_id : string;
  sender_name : string;
  message : string;
  group_id : string;
  timestamp : Z;
  platform : string;
  message_id : option string;
  reply_to : option string
}.

(** [IPersonaManager] of [core/interfaces.py]; [St] is the state behind the
    manager (the persona and its backups). *)
Class IPersonaManager (St : Type) := {
  update_persona : Dict -> list MessageData -> St -> outcome bool * St;
  backup_persona : string -> St -> outcome Z * St;
  restore_persona : Z -> St -> outcome bool * St
}.

(** A call made on the persona manager, with what it returned or raised. *)
Inductive event :=
| Backed (reason : string) (result : outcome Z)
| Updated (style_data : Dict) (messages : list MessageData) (result : outcome bool)
| Restored (backup_id : Z) (result : outcome bool).

(** How an update attempt ends. *)
Inductive attempt :=
| Aborted (e : exn)
| UpdateFailed (backup_id : Z) (e : option exn)
| Committed (backup_id : Z)
| RolledBack (backup_id : Z)
| RestoreFailed (backup_id : Z) (e : option exn).

(** The calls that write the persona, with the backup id they name. *)
Definition writes_persona (ev : event) : bool :=
  match ev with
  | Updated _ _ _ | Restored _ _ => true
  | Backed _ _ => false
  end.

Section Coordinator.

Context {St : Type} `{!IPersonaManager St}.

(** The current persona state, and the verdict of the quality monitor on
    a (before, after) pair: [true] when the change passes. *)
Context (persona : St -> Dict) (passes : Dict -> Dict -> bool).

(** The manager's state with the ghost trace of the calls made on it. *)
Definition Managed : Type := St * list event.

(** [await manager.backup_persona(reason)] and its siblings: the method runs
    on the manager's state and the call is appended to the trace. *)
Definition backup (reason : string) (m : Managed) : outcome Z * Managed :=
  let '(r, s) := backup_persona reason m.1 in (r, (s, m.2 ++ [Backed reason r])).

Definition update (style_data : Dict) (messages : list MessageData)
    (m : Managed) : outcome bool * Managed :=
  let '(r, s) := update_persona style_data messages m.1 in
  (r, (s, m.2 ++ [Updated style_data messages r])).

Definition restore (backup_id : Z) (m : Managed) : outcome bool * Managed :=
  let '(r, s) := restore_persona backup_id m.1 in
  (r, (s, m.2 ++ [Restored backup_id r])).

(** Modelled from the spec: the update attempt of the Persona Coordinator
    (section 4.3), of which the sources hold the interface only.
    PENDING to BACKED_UP: [backup_persona] must return a backup id, or
    the attempt aborts.  BACKED_UP to APPLIED: [update_persona].  APPLIED
    to COMMITTED when the quality monitor passes the change from the
    persona before the attempt to the persona after the update, else
    [restore_persona] with the id of the backup step. *)
Definition update_attempt (reason : string) (style_data : Dict)
    (messages : list MessageData) (m : Managed) : attempt * Managed :=
  let before := persona m.1 in
  match backup reason m with
  | (Raise e, m1) => (Aborted e, m1)
  | (Return backup_id, m1) =>
      match update style_data messages m1 with
      | (Raise e, m2) => (UpdateFailed backup_id (Some e), m2)
      | (Return false, m2) => (UpdateFailed backup_id None, m2)
      | (Return true, m2) =>
          if passes before (persona m2.1) then (Committed backup_id, m2)
          else
            match restore backup_id m2 with
            | (Return true, m3) => (RolledBack backup_id, m3)
            | (Return false, m3) => (RestoreFailed backup_id None, m3)
            | (Raise e, m3) => (RestoreFailed backup_id (Some e), m3)
            end
      end
  end.

End Coordinator.

(** Modelled from the spec: a persona manager over the Backup Manager of
    section 4.2.  The backup with identifier [n] is the [n]-th snapshot
    taken.  A backup stores a full copy of the current persona under the
    next identifier; an update overwrites the persona with the style data;
    a restore overwrites it with the snapshot, which stays in place, and
    answers [false] for an unknown id.  [budget] injects unavailability of
    the storage: [Some n] lets [n] more backups and updates succeed, after
    which they raise and change nothing; [None] never fails. *)
Record store := mkStore {
  current : Dict;
  backups : list Dict;
  budget : option nat
}.

Definition unavailable : exn := Exception "storage unavailable".

Definition get_backup (backup_id : Z) (s : store) : option Dict :=
  if (1 <=? backup_id)%Z then backups s !! Z.to_nat (backup_id - 1) else None.

Definition charged {A} (body : store -> A * store) (s : store) : outcome A * store :=
  match budget s with
  | Some O => (Raise unavailable, s)
  | Some (S n) =>
      let '(a, s') := body (mkStore (current s) (backups s) (Some n)) in (Return a, s')
  | None => let '(a, s') := body s in (Return a, s')
  end.

#[global] Instance store_manager : IPersonaManager store := {|
  backup_persona reason :=
    charged (fun s =>
      (Z.of_nat (S (length (backups s))),
       mkStore (current s) (backups s ++ [current s]) (budget s)));
  update_persona style_data messages :=
    charged (fun s => (true, mkStore (style_data ∪ current s) (backups s) (budget s)));
  restore_persona backup_id s :=
    match get_backup backup_id s with
    | Some snapshot => (Return true, mkStore snapshot (backups s) (budget s))
    | None => (Return false, s)
    end
|}.

End PersonaManager.

(** ** The enumerations of [core/interfaces.py] *)

Module Interfaces.

(** An [Enum] class: its members in definition order and their values;
    [of_value v] is the call [Class(v)], which gives the first member whose
    value is [v] and raises [ValueError] ([None] here) when there is none. *)
Definition of_value {E} (members : list E) (value : E -> string)
    (v : string) : option E :=
  List.find (fun m => String.eqb (value m) v) members.

Inductive ServiceLifecycle :=
| CREATED | INITIALIZING | RUNNING | STOPPING | STOPPED | ERROR.

Definition ServiceLifecycle_members : list ServiceLifecycle :=
  [CREATED; INITIALIZING; RUNNING; STOPPING; STOPPED; ERROR].

Definition ServiceLifecycle_value (m : ServiceLifecycle) : string :=
  match m with
  | CREATED => "created"
  | INITIALIZING => "initializing"
  | RUNNING => "running"
  | STOPPING => "stopping"
  | STOPPED => "stopped"
  | ERROR => "error"
  end.

Inductive LearningStrategyType := PROGRESSIVE | BATCH | REALTIME | HYBRID.

Definition LearningStrategyType_members : list LearningStrategyType :=
  [PROGRESSIVE; BATCH; REALTIME; HYBRID].

Definition LearningStrategyType_value (m : LearningStrategyType) : string :=
  match m with
  | PROGRESSIVE => "progressive"
  | BATCH => "batch"
  | REALTIME => "realtime"
  | HYBRID => "hybrid"
  end.

Inductive AnalysisType := STYLE | SENTIMENT | TOPIC | BEHAVIOR | QUALITY.

Definition AnalysisType_members : list AnalysisType :=
  [STYLE; SENTIMENT; TOPIC; BEHAVIOR; QUALITY].

Definition AnalysisType_value (m : AnalysisType) : string :=
  match m with
  | STYLE => "style"
  | SENTIMENT => "sentiment"
  | TOPIC => "topic"
  | BEHAVIOR => "behavior"
  | QUALITY => "quality"
  end.

Inductive EventType :=
| MESSAGE_COLLECTED | MESSAGE_FILTERED | STYLE_ANALYZED | PERSONA_UPDATED
| LEARNING_COMPLETED | QUALITY_ISSUE_DETECTED | SERVICE_STATUS_CHANGED.

Definition EventType_members : list EventType :=
  [MESSAGE_COLLECTED; MESSAGE_FILTERED; STYLE_ANALYZED; PERSONA_UPDATED;
   LEARNING_COMPLETED; QUALITY_ISSUE_DETECTED; SERVICE_STATUS_CHANGED].

Definition EventType_value (m : EventType) : string :=
  match m with
  | MESSAGE_COLLECTED => "message_collected"
  | MESSAGE_FILTERED => "message_filtered"
  | STYLE_ANALYZED => "style_analyzed"
  | PERSONA_UPDATED => "persona_updated"
  | LEARNING_COMPLETED => "learning_completed"
  | QUALITY_ISSUE_DETECTED => "quality_issue_detected"
  | SERVICE_STATUS_CHANGED => "service_status_changed"
  end.

End Interfaces.

(** * Properties of the message collector *)

Section CollectorProperties.

Context {DB : Type} `{!DatabaseManager.t DB}.

Local Abbreviation world := (@World DB).
Implicit Types (w : world) (msg : Dict) (msgs : list Dict).
Implicit Types (cfg : Dict) (d : DB) (clk : nat -> Z).

Lemma same_attributes_refl w : same_attributes w w.
Proof. repeat split. Qed.

Lemma same_attributes_trans w1 w2 w3 :
  same_attributes w1 w2 -> same_attributes w2 w3 -> same_attributes w1 w3.
Proof.
  unfold same_attributes. intros (?&?&?&?&?&?&?) (?&?&?&?&?&?&?).
  repeat split; congruence.
Qed.

Lemma new_calls_app w w' evs :
  calls w' = calls w ++ evs -> new_calls w w' = evs.
Proof.
  intros E. unfold new_calls. rewrite E. apply drop_app_length.
Qed.

Lemma new_calls_same w : new_calls w w = [].
Proof. apply new_calls_app. by rewrite app_nil_r. Qed.

(** One storage call: exactly one event is appended. *)
Lemma db_call_spec {A} c (method : DB -> outcome A * DB) w :
  same_attributes w (db_call c method w).2 /\
  (db_call c method w).1 = (method (database_manager w)).1 /\
  database_manager (db_call c method w).2 = (method (database_manager w)).2 /\
  calls (db_call c method w).2 =
    calls w ++ [Event c (raised (db_call c method w).1)].
Proof.
  unfold db_call. destruct (method (database_manager w)) as [r d].
  simpl. repeat split.
Qed.

(** The fan-out of writes of a flush: one [SaveRawMessage] event per
    message, in order; it raises exactly when one of the writes raised. *)
Lemma gather_save_spec msgs w :
  same_attributes w (gather (map save msgs) w).2 /\
  exists evs,
    calls (gather (map save msgs) w).2 = calls w ++ evs /\
    map ev_call evs = map DatabaseManager.SaveRawMessage msgs /\
    ((exists l, (gather (map save msgs) w).1 = Return l) /\ Forall ev_ok evs
     \/ (exists e, (gather (map save msgs) w).1 = Raise e) /\
        Exists (fun ev => ev_error ev <> None) evs).
Proof.
  revert w. induction msgs as [|msg msgs IH]; intros w.
  - simpl. split; [apply same_attributes_refl|].
    exists []. rewrite app_nil_r. repeat split. left. split; [by eexists|constructor].
  - cbn [map gather].
    destruct (db_call_spec (DatabaseManager.SaveRawMessage msg)
                (DatabaseManager.save_raw_message msg) w) as (Hs & Hr & _ & Hc).
    fold (save msg) in Hs, Hr, Hc.
    destruct (save msg w) as [r w1] eqn:E1. simpl in Hs, Hr, Hc.
    destruct (IH w1) as (Hs' & evs & Hc' & Hm & Hres).
    destruct (gather (map save msgs) w1) as [rs w2] eqn:E2. simpl in *.
    split; [eapply same_attributes_trans; eauto|].
    exists (Event (DatabaseManager.SaveRawMessage msg) (raised r) :: evs).
    split; [rewrite Hc', Hc, <- app_assoc; reflexivity|].
    split; [simpl; by rewrite Hm|].
    destruct r as [[]|e]; simpl.
    + destruct Hres as [[[l ->] Hok]|[[e ->] Hex]].
      * left. split; [by eexists|]. constructor; [reflexivity|assumption].
      * right. split; [by eexists|]. by apply Exists_cons_tl.
    + right. split; [by eexists|]. apply Exists_cons_hd. simpl. discriminate.
Qed.

Lemma same_attributes_settings w w' : same_attributes w w' -> same_settings w w'.
Proof. unfold same_attributes, same_settings. tauto. Qed.

Lemma flush_empty w :
  _message_cache w = [] -> _flush_message_cache w = (Return tt, w).
Proof.
  intros E. unfold _flush_message_cache, bind, get. rewrite E. reflexivity.
Qed.

Lemma flush_unfold w :
  _message_cache w <> [] ->
  _flush_message_cache w =
    match gather (map save (_message_cache w)) w with
    | (Return _, w1) =>
        (Return tt,
         mkWorld [] (_cache_size_limit w1) (clock w1 (ticks w1))
                 (_flush_interval w1) (config w1) (database_manager w1)
                 (calls w1) (clock w1) (S (ticks w1)))
    | (Raise e, w1) =>
        (Raise (DataStorageError ("消息缓存刷新失败: " +:+ str e)), w1)
    end.
Proof.
  intros Hne. unfold _flush_message_cache, bind, get, try_except.
  destruct (_message_cache w) as [|msg msgs]; [done|].
  destruct (gather _ w) as [[l|e] w1]; reflexivity.
Qed.

(** What a flush of a non-empty buffer does. *)
Lemma flush_spec w :
  _message_cache w <> [] ->
  exists evs,
    calls (_flush_message_cache w).2 = calls w ++ evs /\
    map ev_call evs = map DatabaseManager.SaveRawMessage (_message_cache w) /\
    same_settings w (_flush_message_cache w).2 /\
    ((_flush_message_cache w).1 = Return tt /\
     Forall ev_ok evs /\
     _message_cache (_flush_message_cache w).2 = [] /\
     _last_flush_time (_flush_message_cache w).2 = clock w (ticks w) /\
     ticks (_flush_message_cache w).2 = S (ticks w)
     \/
     (exists e, (_flush_message_cache w).1 =
                  Raise (DataStorageError ("消息缓存刷新失败: " +:+ str e))) /\
     Exists (fun ev => ev_error ev <> None) evs /\
     same_attributes w (_flush_message_cache w).2).
Proof.
  intros Hne. rewrite (flush_unfold w Hne).
  destruct (gather_save_spec (_message_cache w) w) as (Hs & evs & Hc & Hm & Hres).
  destruct (gather (map save (_message_cache w)) w) as [r w1]. simpl in *.
  exists evs.
  destruct Hs as (H1 & H2 & H3 & H4 & H5 & H6 & H7).
  destruct Hres as [[[l ->] Hok]|[[e ->] Hex]]; simpl.
  - split; [assumption|]. split; [assumption|].
    split; [by repeat split|].
    left. rewrite H6, H7. by repeat split.
  - split; [assumption|]. split; [assumption|].
    split; [by repeat split|].
    right. split; [by eexists|]. by repeat split.
Qed.

Lemma Forall_ok_not_Exists_error (evs : list event) :
  Forall ev_ok evs -> Exists (fun ev => ev_error ev <> None) evs -> False.
Proof.
  intros Hok Hex. apply Exists_exists in Hex as (ev & Hin & Hbad).
  rewrite Forall_forall in Hok. exact (Hbad (Hok _ Hin)).
Qed.

Lemma ok_events (evs : list event) (cs : list DatabaseManager.call) :
  map ev_call evs = cs -> Forall ev_ok evs -> evs = map ok cs.
Proof.
  intros <-. induction 1 as [|[c err] evs Hev _ IH]; [reflexivity|].
  unfold ev_ok in Hev. simpl in *. subst err. by rewrite <- IH.
Qed.

(** C7.  Flushing an empty buffer returns at once and leaves the world as
    it was: no storage call is made and the flush timer keeps its value.
    Hence a flush that follows a successful flush changes nothing. *)
Theorem flush_empty_buffer_is_noop w :
  (_message_cache w = [] -> _flush_message_cache w = (Return tt, w)) /\
  ((_flush_message_cache w).1 = Return tt ->
   _flush_message_cache (_flush_message_cache w).2 =
     (Return tt, (_flush_message_cache w).2)).
Proof.
  split; [apply flush_empty|].
  intros Hok. apply flush_empty.
  destruct (_message_cache w) as [|msg msgs] eqn:Ec.
  - by rewrite flush_empty.
  - destruct (flush_spec w) as (evs & _ & _ & _ & [(_ & _ & Hc & _)|([e He] & _)]).
    + by rewrite Ec.
    + exact Hc.
    + rewrite Hok in He. discriminate.
Qed.

(** C10.  [mark_messages_processed] with an empty id list returns normally
    and leaves the world as it was: no storage call, same buffer, same
    storage state. *)
Theorem mark_no_messages_is_noop w :
  mark_messages_processed [] w = (Return tt, w).
Proof. reflexivity. Qed.

(** C5.  A mapping that lacks one of [sender_id], [message], [timestamp]
    (the empty mapping among them) makes [collect_message] return [False]
    without raising, and the world (buffer, storage, trace) is as before. *)
Theorem collect_rejects_incomplete_message w message_data field :
  field ∈ required_fields ->
  message_data !! field = None ->
  collect_message message_data w = (Return false, w).
Proof.
  intros Hin Hnone. unfold collect_message, try_except.
  destruct (missing_field message_data) as [f|] eqn:Hm; [reflexivity|].
  unfold missing_field in Hm.
  pose proof (find_none _ _ Hm field (proj1 (list_elem_of_In _ _) Hin)) as Hf.
  rewrite bool_decide_eq_false in Hf. contradiction.
Qed.

(** C1.  When a storage write made by a flush raises, the flush raises
    [DataStorageError], the buffer and the flush timer keep their values,
    and the next flush issues a write for every message that was buffered,
    in order. *)
Theorem flush_failure_keeps_buffer w :
  storage_fault_in _flush_message_cache w ->
  let w' := (_flush_message_cache w).2 in
  raises_DataStorageError _flush_message_cache w /\
  _message_cache w' = _message_cache w /\
  _last_flush_time w' = _last_flush_time w /\
  map ev_call (new_calls w' (_flush_message_cache w').2) =
    map DatabaseManager.SaveRawMessage (_message_cache w).
Proof.
  unfold storage_fault_in, raises_DataStorageError. intros Hfault. cbv zeta.
  destruct (_message_cache w) as [|msg msgs] eqn:Ec.
  { rewrite flush_empty, new_calls_same in Hfault by done. by inversion Hfault. }
  destruct (flush_spec w) as (evs & Hc & _ & _ & Hres); [by rewrite Ec|].
  rewrite (new_calls_app _ _ _ Hc) in Hfault.
  destruct Hres as [(_ & Hok & _)|([e He] & _ & Hs)].
  { destruct (Forall_ok_not_Exists_error _ Hok Hfault). }
  destruct Hs as (Hcache & _ & Hlast & _).
  split; [by eexists|]. rewrite Ec in Hcache.
  split; [exact Hcache|]. split; [exact Hlast|].
  destruct (flush_spec (_flush_message_cache w).2) as (evs' & Hc' & Hm' & _).
  { by rewrite Hcache. }
  rewrite (new_calls_app _ _ _ Hc'), Hm', Hcache. reflexivity.
Qed.

(** *** [collect_message] on a complete message *)

Lemma collect_valid w message_data :
  missing_field message_data = None ->
  collect_message message_data w =
    let w1 := (set_message_cache (_message_cache w ++ [message_data]) w).2 in
    let finish (rw : outcome unit * world) :=
      match rw with
      | (Return _, w') => (Return true, w')
      | (Raise e, w') => (Raise (MessageCollectionError ("消息收集失败: " +:+ str e)), w')
      end in
    if Z.of_nat (length (_message_cache w ++ [message_data])) >=? _cache_size_limit w
    then finish (_flush_message_cache w1)
    else if clock w (ticks w) - _last_flush_time w >? _flush_interval w
         then finish (_flush_message_cache (time_time w1).2)
         else (Return true, (time_time w1).2).
Proof.
  intros Hv. unfold collect_message, try_except. rewrite Hv.
  unfold flush_due, bind, get, ret. simpl.
  destruct (_ >=? _); simpl.
  - destruct (_flush_message_cache _) as [[[]|e] w']; reflexivity.
  - destruct (_ >? _); simpl; [|reflexivity].
    destruct (_flush_message_cache _) as [[[]|e] w']; reflexivity.
Qed.

Lemma collect_spec w message_data :
  missing_field message_data = None ->
  let r := (collect_message message_data w).1 in
  let w' := (collect_message message_data w).2 in
  same_settings w w' /\
  ((~ size_reached w message_data /\ ~ interval_elapsed w) /\
   r = Return true /\
   _message_cache w' = _message_cache w ++ [message_data] /\
   calls w' = calls w /\
   _last_flush_time w' = _last_flush_time w /\
   ticks w' = S (ticks w)
   \/
   (size_reached w message_data \/ interval_elapsed w) /\
   exists evs,
     calls w' = calls w ++ evs /\
     map ev_call evs =
       map DatabaseManager.SaveRawMessage (_message_cache w ++ [message_data]) /\
     (r = Return true /\ Forall ev_ok evs /\ _message_cache w' = [] /\
      (exists n, _last_flush_time w' = clock w n /\ ticks w' = S n)
      \/
      (exists text, r = Raise (MessageCollectionError text)) /\
      Exists (fun ev => ev_error ev <> None) evs /\
      _message_cache w' = _message_cache w ++ [message_data] /\
      _last_flush_time w' = _last_flush_time w)).
Proof.
  intros Hv. cbv zeta. rewrite (collect_valid _ _ Hv). cbv zeta.
  unfold size_reached, interval_elapsed.
  set (w1 := (set_message_cache (_message_cache w ++ [message_data]) w).2).
  assert (Hne : forall w2, _message_cache w2 = _message_cache w ++ [message_data] ->
                           _message_cache w2 <> []).
  { intros w2 ->. by destruct (_message_cache w). }
  assert (Hflush : forall w2,
    same_attributes w1 w2 \/
    (same_settings w1 w2 /\ _message_cache w2 = _message_cache w1 /\
     _last_flush_time w2 = _last_flush_time w1 /\ ticks w2 = S (ticks w1)) ->
    calls w2 = calls w ->
    let rw := _flush_message_cache w2 in
    let out := match rw with
               | (Return _, w') => (Return true, w')
               | (Raise e, w') =>
                   (Raise (MessageCollectionError ("消息收集失败: " +:+ str e)), w')
               end in
    same_settings w out.2 /\
    exists evs,
     calls out.2 = calls w ++ evs /\
     map ev_call evs =
       map DatabaseManager.SaveRawMessage (_message_cache w ++ [message_data]) /\
     (out.1 = Return true /\ Forall ev_ok evs /\ _message_cache out.2 = [] /\
      (exists n, _last_flush_time out.2 = clock w n /\ ticks out.2 = S n)
      \/
      (exists text, out.1 = Raise (MessageCollectionError text)) /\
      Exists (fun ev => ev_error ev <> None) evs /\
      _message_cache out.2 = _message_cache w ++ [message_data] /\
      _last_flush_time out.2 = _last_flush_time w)).
  { intros w2 Hw2 Hcalls. cbv zeta.
    assert (Hc2 : _message_cache w2 = _message_cache w ++ [message_data]).
    { destruct Hw2 as [(?&_)|(_&?&_)]; assumption. }
    assert (Hset : same_settings w w2).
    { destruct Hw2 as [Hs|(Hs&_)]; [apply same_attributes_settings in Hs|];
        destruct Hs as (?&?&?&?); by repeat split. }
    assert (Hlast : _last_flush_time w2 = _last_flush_time w).
    { destruct Hw2 as [(_&_&?&_)|(_&_&?&_)]; assumption. }
    destruct (flush_spec w2 (Hne _ Hc2)) as (evs & Hc & Hm & Hs & Hres).
    destruct (_flush_message_cache w2) as [r w3]. simpl in *.
    assert (Hset3 : same_settings w w3).
    { destruct Hset as (?&?&?&?), Hs as (?&?&?&?). repeat split; congruence. }
    rewrite Hcalls in Hc. rewrite Hc2 in Hm.
    destruct Hres as [(-> & Hok & Hcache & Hl & Ht)|([e ->] & Hex & Ha)]; simpl.
    - split; [assumption|]. exists evs. repeat split; try assumption.
      left. repeat split; try assumption.
      exists (ticks w2). destruct Hset as (_&_&_&Hclk).
      rewrite Hl, Hclk. by split.
    - split; [assumption|]. exists evs. repeat split; try assumption.
      right. destruct Ha as (Hcache & _ & Hl' & _).
      split; [by eexists|]. repeat split; try assumption; congruence. }
  destruct (_ >=? _) eqn:Hsize.
  - apply Z.geb_le in Hsize.
    destruct (Hflush w1) as (Hs & Hex); [left; apply same_attributes_refl|reflexivity|].
    split; [exact Hs|]. right. split; [by left|]. exact Hex.
  - assert (~ _cache_size_limit w <= Z.of_nat (length (_message_cache w ++ [message_data]))).
    { intros Hle. apply Z.geb_le in Hle. congruence. }
    destruct (_ >? _) eqn:Htime.
    + apply Z.gtb_lt in Htime.
      destruct (Hflush (time_time w1).2) as (Hs & Hex).
      { right. by repeat split. }
      { reflexivity. }
      split; [exact Hs|]. right. split; [by right|]. exact Hex.
    + assert (~ _flush_interval w < clock w (ticks w) - _last_flush_time w).
      { intros Hlt. apply Z.gtb_lt in Hlt. congruence. }
      split; [by repeat split|]. left. by repeat split.
Qed.

Lemma collect_invalid w message_data field :
  missing_field message_data = Some field ->
  collect_message message_data w = (Return false, w).
Proof. intros Hm. unfold collect_message, try_except. by rewrite Hm. Qed.


(** C2.  A fresh service has size limit 100 and interval 30.  In every
    [collect_message] call on a complete message (every call that returns
    [True] is one), the message is appended and then, within the call, a
    flush is triggered exactly when the size limit is reached or the
    interval has elapsed: the writes of the whole buffer, the new message
    included, are issued, and either they all return, the call returns
    [True] with the buffer cleared and the timer reset, or one raises and the
    call raises [MessageCollectionError] with the buffer kept.  Otherwise
    the call returns [True], the message stays buffered and no storage call
    is made. *)
Theorem collect_flushes_iff_due cfg d clk w message_data :
  missing_field message_data = None ->
  let r := (collect_message message_data w).1 in
  let w' := (collect_message message_data w).2 in
  let due := size_reached w message_data \/ interval_elapsed w in
  (_cache_size_limit (__init__ cfg d clk) = 100 /\
   _flush_interval (__init__ cfg d clk) = 30) /\
  (new_calls w w' <> [] <-> due) /\
  (due ->
   map ev_call (new_calls w w') =
     map DatabaseManager.SaveRawMessage (_message_cache w ++ [message_data]) /\
   (r = Return true /\
    new_calls w w' =
      map ok (map DatabaseManager.SaveRawMessage (_message_cache w ++ [message_data])) /\
    _message_cache w' = [] /\
    (exists n, _last_flush_time w' = clock w n /\ ticks w' = S n)
    \/
    (exists text, r = Raise (MessageCollectionError text)) /\
    Exists (fun ev => ev_error ev <> None) (new_calls w w') /\
    _message_cache w' = _message_cache w ++ [message_data] /\
    _last_flush_time w' = _last_flush_time w)) /\
  (~ due ->
   r = Return true /\
   new_calls w w' = [] /\
   _message_cache w' = _message_cache w ++ [message_data] /\
   _last_flush_time w' = _last_flush_time w).
Proof.
  intros Hv. cbv zeta. split; [by split|].
  destruct (collect_spec w message_data Hv)
    as (_ & [(Hnot & Hr & Hcache & Hcalls & Hlast & _)|(Hdue & evs & Hcalls & Hm & Hres)]).
  - assert (Hnew : new_calls w (collect_message message_data w).2 = []).
    { apply new_calls_app. by rewrite app_nil_r. }
    split; [|split].
    + split; [intros Hn; by rewrite Hnew in Hn|tauto].
    + tauto.
    + intros _. by repeat split.
  - rewrite (new_calls_app _ _ _ Hcalls).
    split; [|split].
    + split; [by intros _|]. intros _ ->. by destruct (_message_cache w).
    + intros _. split; [exact Hm|].
      destruct Hres as [(Hr & Hok & Hcache & Hlast)|(Hraise & Hex & Hcache & Hlast)].
      * left. rewrite <- (ok_events _ _ Hm Hok). by repeat split.
      * right. by repeat split.
    + tauto.
Qed.

(** *** Sequences of [collect_message] calls *)

Lemma collect_extends w message_data :
  same_settings w (collect_message message_data w).2 /\
  exists evs, calls (collect_message message_data w).2 = calls w ++ evs.
Proof.
  destruct (missing_field message_data) as [field|] eqn:Hm.
  - rewrite (collect_invalid _ _ _ Hm). simpl. split; [by repeat split|].
    exists []. by rewrite app_nil_r.
  - destruct (collect_spec w message_data Hm)
      as (Hs & [(_ & _ & _ & Hcalls & _)|(_ & evs & Hcalls & _)]).
    + split; [exact Hs|]. exists []. by rewrite app_nil_r.
    + split; [exact Hs|]. by exists evs.
Qed.

Lemma collect_all_extends msgs w :
  same_settings w (collect_all msgs w) /\
  exists evs, calls (collect_all msgs w) = calls w ++ evs.
Proof.
  revert w. induction msgs as [|m msgs IH]; intros w; simpl.
  - split; [by repeat split|]. exists []. by rewrite app_nil_r.
  - destruct (collect_extends w m) as ((?&?&?&?) & evs1 & Hc1).
    destruct (IH (collect_message m w).2) as ((?&?&?&?) & evs2 & Hc2).
    fold (collect_all msgs (collect_message m w).2).
    split; [repeat split; congruence|].
    exists (evs1 ++ evs2). by rewrite Hc2, Hc1, app_assoc.
Qed.

Lemma collect_keeps_bound w message_data :
  0 < _cache_size_limit w ->
  Z.of_nat (length (_message_cache w)) < _cache_size_limit w ->
  Forall ev_ok (new_calls w (collect_message message_data w).2) ->
  Z.of_nat (length (_message_cache (collect_message message_data w).2))
    < _cache_size_limit w.
Proof.
  intros Hpos Hlt Hok.
  destruct (missing_field message_data) as [field|] eqn:Hm.
  { by rewrite (collect_invalid _ _ _ Hm). }
  destruct (collect_spec w message_data Hm)
    as (_ & [((Hsize & _) & _ & Hcache & _)|(_ & evs & Hcalls & _ & Hres)]).
  - rewrite Hcache. unfold size_reached in Hsize. lia.
  - rewrite (new_calls_app _ _ _ Hcalls) in Hok.
    destruct Hres as [(_ & _ & -> & _)|(_ & Hex & _)]; [simpl; lia|].
    destruct (Forall_ok_not_Exists_error _ Hok Hex).
Qed.

Lemma collect_all_keeps_bound msgs w :
  0 < _cache_size_limit w ->
  Z.of_nat (length (_message_cache w)) < _cache_size_limit w ->
  Forall ev_ok (new_calls w (collect_all msgs w)) ->
  Z.of_nat (length (_message_cache (collect_all msgs w))) < _cache_size_limit w.
Proof.
  revert w. induction msgs as [|m msgs IH]; intros w Hpos Hlt Hok; [exact Hlt|].
  simpl in *. fold (collect_all msgs (collect_message m w).2) in *.
  destruct (collect_extends w m) as ((Hl & _) & evs1 & Hc1).
  destruct (collect_all_extends msgs (collect_message m w).2) as (_ & evs2 & Hc2).
  assert (Hc3 : calls (collect_all msgs (collect_message m w).2)
                = calls w ++ (evs1 ++ evs2)).
  { by rewrite Hc2, Hc1, app_assoc. }
  rewrite (new_calls_app _ _ _ Hc3) in Hok. apply Forall_app in Hok as [Hok1 Hok2].
  rewrite <- Hl. apply IH.
  - by rewrite Hl.
  - rewrite Hl. apply collect_keeps_bound; try assumption.
    by rewrite (new_calls_app _ _ _ Hc1).
  - by rewrite (new_calls_app _ _ _ Hc2).
Qed.

(** C9.  Starting from a fresh service, after any sequence of
    [collect_message] calls in which no storage write raised, the buffer
    holds fewer than 100 messages. *)
Theorem buffer_stays_below_limit cfg d clk msgs :
  let w' := collect_all msgs (__init__ cfg d clk) in
  Forall ev_ok (calls w') ->
  Z.of_nat (length (_message_cache w')) < 100.
Proof.
  cbv zeta. intros Hok.
  apply (collect_all_keeps_bound msgs (__init__ cfg d clk)); simpl; try lia.
  unfold new_calls. simpl. by rewrite drop_0.
Qed.

(** Below the size limit and within the interval nothing is flushed. *)
Lemma collect_all_quiet msgs w :
  Forall (fun m => missing_field m = None) msgs ->
  Z.of_nat (length (_message_cache w) + length msgs) < _cache_size_limit w ->
  (forall n, clock w n - _last_flush_time w <= _flush_interval w) ->
  _message_cache (collect_all msgs w) = _message_cache w ++ msgs /\
  calls (collect_all msgs w) = calls w /\
  _last_flush_time (collect_all msgs w) = _last_flush_time w.
Proof.
  revert w. induction msgs as [|m msgs IH]; intros w Hv Hlen Hclk.
  { simpl. by rewrite app_nil_r. }
  apply Forall_cons in Hv as [Hm Hv]. simpl in Hlen |- *.
  fold (collect_all msgs (collect_message m w).2).
  destruct (collect_spec w m Hm)
    as ((Hl & Hi & _ & Hc) & [(_ & _ & Hcache & Hcalls & Hlast & _)|([Hsize|Htime] & _)]).
  - destruct (IH (collect_message m w).2 Hv) as (Hcache' & Hcalls' & Hlast').
    + rewrite Hcache, Hl, length_app. simpl. lia.
    + intros n. rewrite Hc, Hlast, Hi. apply Hclk.
    + rewrite Hcache', Hcalls', Hlast', Hcache, Hcalls, Hlast, <- app_assoc.
      by repeat split.
  - unfold size_reached in Hsize. rewrite length_app in Hsize. simpl in Hsize. lia.
  - unfold interval_elapsed in Htime. specialize (Hclk (ticks w)). lia.
Qed.

Lemma collect_all_app msgs1 msgs2 w :
  collect_all (msgs1 ++ msgs2) w = collect_all msgs2 (collect_all msgs1 w).
Proof. unfold collect_all. apply fold_left_app. Qed.

(** A flush issues one write per buffered message and nothing else; it
    raises [DataStorageError] exactly when one of the writes raised. *)
Lemma flush_calls w :
  exists evs,
    calls (_flush_message_cache w).2 = calls w ++ evs /\
    map ev_call evs = map DatabaseManager.SaveRawMessage (_message_cache w) /\
    ((_flush_message_cache w).1 = Return tt /\ Forall ev_ok evs
     \/
     (exists text, (_flush_message_cache w).1 = Raise (DataStorageError text)) /\
     Exists (fun ev => ev_error ev <> None) evs).
Proof.
  destruct (_message_cache w) as [|msg msgs] eqn:Ec.
  - rewrite flush_empty by done. exists []. rewrite app_nil_r.
    repeat split. left. by split.
  - destruct (flush_spec w) as (evs & Hc & Hm & _ & Hres); [by rewrite Ec|].
    exists evs. rewrite <- Ec. repeat split; try assumption.
    destruct Hres as [(? & ? & _)|([e He] & ? & _)]; [by left|].
    right. split; [by eexists|assumption].
Qed.

Lemma flush_ok_empties w :
  (_flush_message_cache w).1 = Return tt ->
  _message_cache (_flush_message_cache w).2 = [].
Proof.
  intros Hok. destruct (_message_cache w) as [|msg msgs] eqn:Ec.
  - by rewrite flush_empty.
  - destruct (flush_spec w) as (evs & _ & _ & _ & [(_ & _ & Hc & _)|([e He] & _)]);
      [by rewrite Ec|exact Hc|].
    rewrite Hok in He. discriminate.
Qed.

(** [get_statistics] flushes before it counts: what it returns is either
    the empty mapping of its exception handler or a mapping whose
    [cache_size] is 0. *)
Lemma get_statistics_spec w :
  (exists evs evs',
     calls (get_statistics w).2 = calls w ++ evs ++ evs' /\
     map ev_call evs = map DatabaseManager.SaveRawMessage (_message_cache w)) /\
  exists statistics,
    (get_statistics w).1 = Return statistics /\
    (statistics = ∅ \/
     statistics !! "cache_size" = Some (VInt 0) /\
     _message_cache (get_statistics w).2 = []).
Proof.
  destruct (flush_calls w) as (evs & Hc & Hm & _).
  pose proof (flush_ok_empties w) as Hempty.
  unfold get_statistics, try_except, bind.
  destruct (_flush_message_cache w) as [[[]|e] w1]; simpl in *.
  - destruct (db_call_spec DatabaseManager.GetMessagesStatistics
                DatabaseManager.get_messages_statistics w1)
      as ((Hcache & _) & _ & _ & Hc1).
    destruct (db_call _ _ w1) as [[st|e] w2]; simpl in *.
    + split.
      * exists evs, [Event DatabaseManager.GetMessagesStatistics None].
        by rewrite Hc1, Hc, app_assoc.
      * eexists. split; [reflexivity|]. right.
        rewrite Hcache, Hempty by done. split; [apply lookup_insert_eq|done].
    + split.
      * exists evs, [Event DatabaseManager.GetMessagesStatistics (Some e)].
        by rewrite Hc1, Hc, app_assoc.
      * exists ∅. split; [reflexivity|by left].
  - split.
    + exists evs, []. by rewrite app_nil_r.
    + exists ∅. split; [reflexivity|by left].
Qed.

(** 150 complete messages on a fresh service, no delay, no failing write:
    one flush, at the 100th message. *)
Lemma collect_150 cfg d clk msgs :
  length msgs = 150%nat ->
  Forall (fun m => missing_field m = None) msgs ->
  (forall i j, clk i - clk j <= 30) ->
  let w0 := __init__ cfg d clk in
  let w := collect_all msgs w0 in
  Forall ev_ok (calls w) ->
  (calls (collect_all (take 99 msgs) w0) = [] /\
   calls (collect_all (take 100 msgs) w0) =
     map ok (map DatabaseManager.SaveRawMessage (take 100 msgs)) /\
   calls w = map ok (map DatabaseManager.SaveRawMessage (take 100 msgs))) /\
  (_message_cache w = drop 100 msgs /\ length (_message_cache w) = 50%nat).
Proof.
  intros Hlen Hv Hclk w0 w Hok.
  assert (H99 : exists m, msgs !! 99%nat = Some m).
  { apply lookup_lt_is_Some. lia. }
  destruct H99 as [m H99].
  assert (Hsplit : msgs = (take 99 msgs ++ [m]) ++ drop 100 msgs).
  { rewrite <- (take_S_r _ _ _ H99). by rewrite take_drop. }
  assert (Hv' : Forall (fun m => missing_field m = None) (take 99 msgs) /\
                missing_field m = None /\
                Forall (fun m => missing_field m = None) (drop 100 msgs)).
  { rewrite Hsplit in Hv. apply Forall_app in Hv as [Hv1 Hv3].
    apply Forall_app in Hv1 as [Hv1 Hv2]. by apply Forall_cons in Hv2 as [Hv2 _]. }
  destruct Hv' as (Hv1 & Hv2 & Hv3).
  set (w99 := collect_all (take 99 msgs) w0).
  destruct (collect_all_quiet (take 99 msgs) w0 Hv1) as (Hcache99 & Hcalls99 & Hlast99).
  { subst w0. simpl. rewrite length_take. lia. }
  { intros n. subst w0. simpl. apply Hclk. }
  fold w99 in Hcache99, Hcalls99, Hlast99.
  destruct (collect_all_extends (take 99 msgs) w0) as ((Hl99 & Hi99 & _ & Hc99) & _).
  fold w99 in Hl99, Hi99, Hc99.
  set (w100 := (collect_message m w99).2).
  assert (E100 : collect_all (take 100 msgs) w0 = w100).
  { rewrite (take_S_r _ _ _ H99), collect_all_app. reflexivity. }
  assert (Ew : w = collect_all (drop 100 msgs) w100).
  { subst w. rewrite Hsplit at 1. rewrite !collect_all_app. reflexivity. }
  destruct (collect_all_extends (drop 100 msgs) w100) as ((Hl & Hi & _ & Hc) & evs' & Hext).
  rewrite <- Ew in Hl, Hi, Hc, Hext.
  destruct (collect_spec w99 m Hv2)
    as ((Hl100 & Hi100 & _ & Hc100) & [((Hsize & _) & _)|(_ & evs & Hcalls & Hm & Hres)]).
  { exfalso. apply Hsize. unfold size_reached.
    rewrite Hl99, Hcache99, !length_app, length_take, Hlen. subst w0. simpl. lia. }
  fold w100 in Hl100, Hi100, Hc100, Hcalls, Hres.
  rewrite Hcalls99 in Hcalls. subst w0. simpl in Hcalls, Hcache99.
  rewrite Hcalls in Hext. rewrite Hext in Hok. apply Forall_app in Hok as [Hok _].
  destruct Hres as [(_ & _ & Hcache100 & n & Hlast100 & _)|(_ & Hex & _)];
    [|destruct (Forall_ok_not_Exists_error _ Hok Hex)].
  rewrite Hcache99, <- (take_S_r _ _ _ H99) in Hm.
  apply (ok_events _ _ Hm) in Hok. subst evs.
  destruct (collect_all_quiet (drop 100 msgs) w100 Hv3) as (Hcache & Hcalls' & _).
  { rewrite Hcache100, Hl100, Hl99, length_drop, Hlen. simpl. lia. }
  { intros k. rewrite Hlast100, Hi100, Hi99, Hc100, Hc99. simpl. apply Hclk. }
  rewrite <- Ew in Hcache, Hcalls'. rewrite Hcache100 in Hcache. simpl in Hcache.
  split.
  - by rewrite E100, Hcalls', Hcalls.
  - rewrite Hcache, length_drop. split; [reflexivity|lia].
Qed.

(** [get_statistics] in full: when one of its storage calls raises it
    returns the empty mapping; when none does, its calls are the writes of
    the buffer followed by the statistics query, and it returns a mapping
    with [cache_size] 0, the buffer being empty. *)
Lemma get_statistics_cases w :
  exists statistics,
    (get_statistics w).1 = Return statistics /\
    (storage_fault_in get_statistics w /\ statistics = ∅
     \/
     ~ storage_fault_in get_statistics w /\
     new_calls w (get_statistics w).2 =
       map ok (map DatabaseManager.SaveRawMessage (_message_cache w)) ++
       [ok DatabaseManager.GetMessagesStatistics] /\
     statistics !! "cache_size" = Some (VInt 0) /\
     _message_cache (get_statistics w).2 = []).
Proof.
  destruct (flush_calls w) as (evs & Hc & Hm & Hres).
  pose proof (flush_ok_empties w) as Hempty.
  unfold storage_fault_in, get_statistics, try_except, bind.
  destruct (_flush_message_cache w) as [r w1]. simpl in *.
  destruct Hres as [(-> & Hok)|([text ->] & Hex)].
  - destruct (db_call_spec DatabaseManager.GetMessagesStatistics
                DatabaseManager.get_messages_statistics w1)
      as ((Hcache & _) & _ & _ & Hc1).
    destruct (db_call _ _ w1) as [[st|e] w2]; simpl in *.
    + assert (Hc2 : calls w2 = calls w ++
                (evs ++ [ok DatabaseManager.GetMessagesStatistics])).
      { by rewrite Hc1, Hc, app_assoc. }
      rewrite (new_calls_app _ _ _ Hc2). eexists. split; [reflexivity|]. right.
      split.
      { intros Hex. apply (Forall_ok_not_Exists_error
                             (evs ++ [ok DatabaseManager.GetMessagesStatistics]));
          [|exact Hex].
        apply Forall_app. split; [exact Hok|]. by repeat constructor. }
      split; [by rewrite (ok_events _ _ Hm Hok)|].
      rewrite Hcache, Hempty by done. split; [apply lookup_insert_eq|done].
    + assert (Hc2 : calls w2 = calls w ++
                (evs ++ [Event DatabaseManager.GetMessagesStatistics (Some e)])).
      { by rewrite Hc1, Hc, app_assoc. }
      rewrite (new_calls_app _ _ _ Hc2). exists ∅. split; [reflexivity|]. left.
      split; [|reflexivity]. apply Exists_app. right. by apply Exists_cons_hd.
  - simpl. rewrite (new_calls_app _ _ _ Hc). exists ∅. split; [reflexivity|]. left.
    by split.
Qed.

(** C4, as the code has it.  150 complete messages are collected by a
    fresh service, no clock reading is more than 30 after another one and
    no storage write raises.  Then nothing is written during the first 99
    calls, the 100th call writes the first 100 messages, and no later call
    writes: the last 50 messages are in the buffer.  A [get_statistics]
    call made then first issues the writes of these 50 messages.  When none
    of its storage calls raises, these writes and the statistics query are
    all it does, and it returns a mapping with [cache_size] 0, the buffer
    being empty; when one raises it returns the empty mapping.  It never
    reports [cache_size] 50. *)
Theorem one_flush_in_150_then_statistics_flush cfg d clk msgs :
  length msgs = 150%nat ->
  Forall (fun m => missing_field m = None) msgs ->
  (forall i j, clk i - clk j <= 30) ->
  let w0 := __init__ cfg d clk in
  let w := collect_all msgs w0 in
  Forall ev_ok (calls w) ->
  (calls (collect_all (take 99 msgs) w0) = [] /\
   calls (collect_all (take 100 msgs) w0) =
     map ok (map DatabaseManager.SaveRawMessage (take 100 msgs)) /\
   calls w = map ok (map DatabaseManager.SaveRawMessage (take 100 msgs))) /\
  (_message_cache w = drop 100 msgs /\ length (_message_cache w) = 50%nat) /\
  (exists evs evs',
     new_calls w (get_statistics w).2 = evs ++ evs' /\
     map ev_call evs = map DatabaseManager.SaveRawMessage (drop 100 msgs)) /\
  exists statistics,
    (get_statistics w).1 = Return statistics /\
    statistics !! "cache_size" <> Some (VInt 50) /\
    (storage_fault_in get_statistics w /\ statistics = ∅
     \/
     ~ storage_fault_in get_statistics w /\
     new_calls w (get_statistics w).2 =
       map ok (map DatabaseManager.SaveRawMessage (drop 100 msgs)) ++
       [ok DatabaseManager.GetMessagesStatistics] /\
     statistics !! "cache_size" = Some (VInt 0) /\
     _message_cache (get_statistics w).2 = []).
Proof.
  intros Hlen Hv Hclk w0 w Hok.
  destruct (collect_150 cfg d clk msgs Hlen Hv Hclk Hok) as (Hcalls & Hcache & Hn).
  fold w0 in Hcalls. fold w in Hcalls, Hcache, Hn.
  split; [exact Hcalls|]. split; [by split|]. split.
  - destruct (get_statistics_spec w) as ((evs1 & evs2 & Hcs & Hms) & _).
    exists evs1, evs2. rewrite (new_calls_app _ _ _ Hcs). by rewrite <- Hcache.
  - destruct (get_statistics_cases w) as (st & Hst & Hcase).
    exists st. split; [exact Hst|]. rewrite <- Hcache. split; [|exact Hcase].
    destruct Hcase as [(_ & ->)|(_ & _ & -> & _)]; [by rewrite lookup_empty|].
    intros [=].
Qed.

(** *** Reading after writing *)

Section Faithful.

Context (healthy : DB -> Prop) (stored : DB -> Dict -> Prop).
Context (Hfaithful : faithful_storage healthy stored).

Lemma gather_save_faithful msgs w :
  healthy (database_manager w) ->
  (exists l, (gather (map save msgs) w).1 = Return l) /\
  healthy (database_manager (gather (map save msgs) w).2) /\
  forall m, m ∈ msgs \/ stored (database_manager w) m ->
            stored (database_manager (gather (map save msgs) w).2) m.
Proof.
  revert w. induction msgs as [|msg msgs IH]; intros w Hh.
  { simpl. split; [by eexists|]. split; [done|].
    intros m [Hin|Hs]; [by apply elem_of_nil in Hin|done]. }
  cbn [map gather].
  destruct (faithful_save _ _ Hfaithful msg _ Hh) as (d' & Hsave & Hh' & Hst & Hkeep).
  destruct (db_call_spec (DatabaseManager.SaveRawMessage msg)
              (DatabaseManager.save_raw_message msg) w) as (_ & Hr & Hd & _).
  fold (save msg) in Hr, Hd. rewrite Hsave in Hr, Hd.
  destruct (save msg w) as [r w1]. simpl in Hr, Hd. subst r.
  rewrite <- Hd in Hh', Hst, Hkeep.
  destruct (IH w1 Hh') as ([l Hl] & Hh2 & Hst2).
  destruct (gather (map save msgs) w1) as [rs w2]. simpl in *. subst rs.
  split; [by eexists|]. split; [assumption|].
  intros m [Hin|Hs].
  - apply elem_of_cons in Hin as [->|Hin]; apply Hst2; [by right|by left].
  - apply Hst2. right. by apply Hkeep.
Qed.

Lemma flush_faithful w :
  healthy (database_manager w) ->
  (_flush_message_cache w).1 = Return tt /\
  healthy (database_manager (_flush_message_cache w).2) /\
  _message_cache (_flush_message_cache w).2 = [] /\
  forall m, m ∈ _message_cache w \/ stored (database_manager w) m ->
            stored (database_manager (_flush_message_cache w).2) m.
Proof.
  intros Hh. destruct (_message_cache w) as [|msg msgs] eqn:Ec.
  { rewrite flush_empty by done. simpl. repeat split; try done.
    intros m [Hin|Hs]; [by apply elem_of_nil in Hin|done]. }
  rewrite flush_unfold by (by rewrite Ec). rewrite <- Ec.
  destruct (gather_save_faithful (_message_cache w) w Hh) as ([l Hl] & Hh' & Hst).
  destruct (gather _ w) as [r w1]. simpl in *. subst r. simpl.
  by repeat split.
Qed.


Lemma flush_healthy w :
  healthy (database_manager w) ->
  Forall ev_ok (new_calls w (_flush_message_cache w).2).
Proof.
  intros Hh. destruct (flush_faithful w Hh) as (Hok & _).
  destruct (flush_calls w) as (evs & Hc & _ & [(_ & Hall)|([text Hraise] & _)]).
  - by rewrite (new_calls_app _ _ _ Hc).
  - rewrite Hok in Hraise. discriminate.
Qed.

Lemma collect_healthy w message_data :
  healthy (database_manager w) ->
  healthy (database_manager (collect_message message_data w).2) /\
  Forall ev_ok (new_calls w (collect_message message_data w).2).
Proof.
  intros Hh. destruct (missing_field message_data) as [field|] eqn:Hm.
  { rewrite (collect_invalid _ _ _ Hm). simpl. rewrite new_calls_same.
    split; [assumption|constructor]. }
  rewrite (collect_valid _ _ Hm). cbv zeta.
  set (w1 := (set_message_cache (_message_cache w ++ [message_data]) w).2).
  assert (Hflush : forall w2,
            database_manager w2 = database_manager w -> calls w2 = calls w ->
            healthy (database_manager (_flush_message_cache w2).2) /\
            (_flush_message_cache w2).1 = Return tt /\
            Forall ev_ok (new_calls w (_flush_message_cache w2).2)).
  { intros w2 Hd Hc. rewrite <- Hd in Hh.
    destruct (flush_faithful w2 Hh) as (Hok & Hh' & _).
    pose proof (flush_healthy w2 Hh) as Hall.
    unfold new_calls in *. rewrite Hc in Hall. by repeat split. }
  destruct (_ >=? _).
  - destruct (Hflush w1) as (Hh' & Hok & Hall); [reflexivity..|].
    destruct (_flush_message_cache w1) as [r w2]. simpl in *. subst r.
    by split.
  - destruct (_ >? _).
    + destruct (Hflush (time_time w1).2) as (Hh' & Hok & Hall); [reflexivity..|].
      destruct (_flush_message_cache (time_time w1).2) as [r w2].
      simpl in Hok, Hh', Hall. subst r. by split.
    + simpl. split; [assumption|]. unfold new_calls. simpl.
      rewrite drop_all. constructor.
Qed.

Lemma collect_all_healthy msgs w :
  healthy (database_manager w) ->
  healthy (database_manager (collect_all msgs w)) /\
  Forall ev_ok (new_calls w (collect_all msgs w)).
Proof.
  revert w. induction msgs as [|m msgs IH]; intros w Hh.
  { simpl. rewrite new_calls_same. split; [assumption|constructor]. }
  simpl. fold (collect_all msgs (collect_message m w).2).
  destruct (collect_healthy w m Hh) as (Hh1 & Hok1).
  destruct (IH _ Hh1) as (Hh2 & Hok2).
  split; [exact Hh2|].
  destruct (collect_extends w m) as (_ & evs1 & Hc1).
  destruct (collect_all_extends msgs (collect_message m w).2) as (_ & evs2 & Hc2).
  rewrite (new_calls_app _ _ _ Hc1) in Hok1.
  rewrite (new_calls_app _ _ _ Hc2) in Hok2.
  assert (Hc3 : calls (collect_all msgs (collect_message m w).2)
                = calls w ++ (evs1 ++ evs2)).
  { by rewrite Hc2, Hc1, app_assoc. }
  rewrite (new_calls_app _ _ _ Hc3). apply Forall_app. by split.
Qed.

End Faithful.


(** *** Where storage failures go *)

(** A single delegated call: a fault is the call raising. *)
Lemma db_call_fault {A} c (method : DB -> outcome A * DB) w :
  Exists (fun ev => ev_error ev <> None) (new_calls w (db_call c method w).2) ->
  exists e, (db_call c method w).1 = Raise e.
Proof.
  destruct (db_call_spec c method w) as (_ & _ & _ & Hc).
  rewrite (new_calls_app _ _ _ Hc).
  destruct (db_call c method w) as [[a|e] w1]; simpl; [|by eexists].
  intros Hex. apply Exists_cons in Hex as [Hbad|Hex]; [done|by inversion Hex].
Qed.

(** [try: await db.method(...); k  except: raise DataStorageError], with a
    continuation [k] that makes no storage call and does not raise. *)
Lemma delegate_propagates {A B} c (method : DB -> outcome A * DB)
    (k : A -> M B) (prefix : string) w :
  (forall a w1, calls (k a w1).2 = calls w1 /\ exists b, (k a w1).1 = Return b) ->
  let op := try_except (bind (db_call c method) k)
              (fun e => raise (DataStorageError (prefix +:+ str e))) in
  storage_fault_in op w -> raises_DataStorageError op w.
Proof.
  intros Hk op. subst op.
  unfold storage_fault_in, raises_DataStorageError, try_except, bind.
  pose proof (db_call_fault c method w) as Hfault.
  destruct (db_call c method w) as [[a|e] w1]; simpl in *; [|by eexists].
  destruct (Hk a w1) as (Hc & b & Hb).
  destruct (k a w1) as [r w2]. simpl in *. subst r. simpl.
  intros Hex. unfold new_calls in *. rewrite Hc in Hex.
  destruct (Hfault Hex) as [e He]. discriminate.
Qed.

(** The same after a flush. *)
Lemma flush_delegate_propagates {A B} c (method : DB -> outcome A * DB)
    (k : A -> M B) (prefix : string) w :
  (forall a w1, calls (k a w1).2 = calls w1 /\ exists b, (k a w1).1 = Return b) ->
  let op := try_except (bind _flush_message_cache (fun _ => bind (db_call c method) k))
              (fun e => raise (DataStorageError (prefix +:+ str e))) in
  storage_fault_in op w -> raises_DataStorageError op w.
Proof.
  intros Hk op. subst op.
  unfold storage_fault_in, raises_DataStorageError, try_except, bind.
  destruct (flush_calls w) as (evs & Hc & _ & Hres).
  destruct (_flush_message_cache w) as [r w1]. simpl in *.
  destruct Hres as [(-> & Hok)|([text ->] & _)]; [|by eexists].
  destruct (db_call_spec c method w1) as (_ & _ & _ & Hc1).
  destruct (db_call c method w1) as [[a|e] w2]; simpl in *; [|by eexists].
  destruct (Hk a w2) as (Hc2 & b & Hb).
  destruct (k a w2) as [r w3]. simpl in *. subst r. simpl.
  intros Hex. exfalso.
  assert (Hc3 : calls w3 = calls w ++ (evs ++ [Event c None])).
  { by rewrite Hc2, Hc1, Hc, app_assoc. }
  rewrite (new_calls_app _ _ _ Hc3) in Hex.
  apply (Forall_ok_not_Exists_error (evs ++ [Event c None])); [|exact Hex].
  apply Forall_app. split; [exact Hok|]. by repeat constructor.
Qed.

(** [try: await self._flush_message_cache(); await db.method(...); k
     except: return fallback]. *)
Lemma flush_delegate_swallows {A B} c (method : DB -> outcome A * DB)
    (k : A -> M B) (fallback : B) w :
  (forall a w1, calls (k a w1).2 = calls w1) ->
  let op := try_except (bind _flush_message_cache (fun _ => bind (db_call c method) k))
              (fun _ => ret fallback) in
  storage_fault_in op w -> (op w).1 = Return fallback.
Proof.
  intros Hk op. subst op.
  unfold storage_fault_in, try_except, bind.
  destruct (flush_calls w) as (evs & Hc & _ & Hres).
  destruct (_flush_message_cache w) as [r w1]. simpl in *.
  destruct Hres as [(-> & Hok)|([text ->] & _)]; [|done].
  destruct (db_call_spec c method w1) as (_ & _ & _ & Hc1).
  destruct (db_call c method w1) as [[a|e] w2]; simpl in *; [|done].
  specialize (Hk a w2).
  destruct (k a w2) as [[b|e] w3]; simpl in *; [|done]. intros Hex. exfalso.
  assert (Hc3 : calls w3 = calls w ++ (evs ++ [Event c None])).
  { by rewrite Hk, Hc1, Hc, app_assoc. }
  rewrite (new_calls_app _ _ _ Hc3) in Hex.
  apply (Forall_ok_not_Exists_error (evs ++ [Event c None])); [|exact Hex].
  apply Forall_app. split; [exact Hok|]. by repeat constructor.
Qed.

(** C6, as the code has it.  A storage call that raises makes the flush,
    [get_unprocessed_messages], [add_filtered_message],
    [mark_messages_processed], [get_filtered_messages_for_learning],
    [export_learning_data], [clear_all_data], [create_learning_batch] and
    [update_learning_batch] raise [DataStorageError], and makes
    [collect_message] raise [MessageCollectionError]; [get_statistics],
    [get_recent_filtered_messages] and [save_state] catch it and return the
    empty mapping, the empty list and [None]. *)
Theorem storage_faults_by_operation :
  (propagates_storage_fault _flush_message_cache /\
   (forall limit, propagates_storage_fault (get_unprocessed_messages limit)) /\
   (forall filtered_data, propagates_storage_fault (add_filtered_message filtered_data)) /\
   (forall ids, propagates_storage_fault (mark_messages_processed ids)) /\
   (forall limit, propagates_storage_fault (get_filtered_messages_for_learning limit)) /\
   propagates_storage_fault export_learning_data /\
   propagates_storage_fault clear_all_data /\
   (forall name, propagates_storage_fault (create_learning_batch name)) /\
   (forall id kwargs, propagates_storage_fault (update_learning_batch id kwargs))) /\
  (forall message_data w,
     storage_fault_in (collect_message message_data) w ->
     exists text, (collect_message message_data w).1 = Raise (MessageCollectionError text)) /\
  (forall w, storage_fault_in get_statistics w -> (get_statistics w).1 = Return ∅) /\
  (forall group_id limit w,
     storage_fault_in (get_recent_filtered_messages group_id limit) w ->
     (get_recent_filtered_messages group_id limit w).1 = Return []) /\
  (forall w, storage_fault_in save_state w -> (save_state w).1 = Return tt).
Proof.
  assert (Hret : forall A (a : A) (w1 : world),
            calls (ret a w1).2 = calls w1 /\ exists b, (ret a w1).1 = Return b).
  { intros. split; [reflexivity|by eexists]. }
  split; [repeat apply conj|repeat apply conj].
  - intros w. unfold storage_fault_in, raises_DataStorageError.
    destruct (flush_calls w) as (evs & Hc & _ & [(_ & Hok)|(Hraise & _)]); [|done].
    rewrite (new_calls_app _ _ _ Hc). intros Hex.
    destruct (Forall_ok_not_Exists_error _ Hok Hex).
  - intros limit w.
    apply (flush_delegate_propagates
             (DatabaseManager.GetUnprocessedMessages limit)
             (DatabaseManager.get_unprocessed_messages limit)
             (fun messages => ret messages) "获取未处理消息失败: ").
    intros; apply Hret.
  - intros filtered_data w.
    apply (delegate_propagates
             (DatabaseManager.AddFilteredMessage filtered_data)
             (DatabaseManager.add_filtered_message filtered_data)
             (fun _ => ret true) "添加筛选消息失败: ").
    intros; apply Hret.
  - intros ids w. unfold storage_fault_in, raises_DataStorageError,
      mark_messages_processed, try_except.
    destruct ids as [|id ids].
    { simpl. rewrite new_calls_same. by inversion 1. }
    intros Hex.
    assert (Hf := db_call_fault (DatabaseManager.MarkMessagesProcessed (id :: ids))
                    (DatabaseManager.mark_messages_processed (id :: ids)) w).
    destruct (db_call _ _ w) as [[[]|e] w1]; simpl in *; [|by eexists].
    destruct (Hf Hex) as [e He]. discriminate.
  - intros limit w.
    apply (delegate_propagates
             (DatabaseManager.GetFilteredMessagesForLearning limit)
             (DatabaseManager.get_filtered_messages_for_learning limit)
             (fun messages => ret messages) "获取学习消息失败: ").
    intros; apply Hret.
  - intros w.
    apply (flush_delegate_propagates
             DatabaseManager.ExportMessagesLearningData
             DatabaseManager.export_messages_learning_data
             (fun learning_data =>
                bind (get config)
                     (fun cfg => ret (<["config" := VDict cfg]> learning_data)))
             "导出学习数据失败: ").
    intros. split; [reflexivity|by eexists].
  - intros w.
    apply (flush_delegate_propagates
             DatabaseManager.ClearAllMessagesData
             DatabaseManager.clear_all_messages_data
             (fun _ => set_message_cache []) "清空数据失败: ").
    intros. split; [reflexivity|by eexists].
  - intros name w.
    apply (delegate_propagates
             (DatabaseManager.CreateLearningBatch name)
             (DatabaseManager.create_learning_batch name)
             (fun batch_id => ret batch_id) "创建学习批次失败: ").
    intros; apply Hret.
  - intros id kwargs w. unfold storage_fault_in, raises_DataStorageError,
      update_learning_batch, try_except.
    intros Hex.
    assert (Hf := db_call_fault (DatabaseManager.UpdateLearningBatch id kwargs)
                    (DatabaseManager.update_learning_batch id kwargs) w).
    destruct (db_call _ _ w) as [[[]|e] w1]; simpl in *; [|by eexists].
    destruct (Hf Hex) as [e He]. discriminate.
  - intros message_data w. unfold storage_fault_in.
    destruct (missing_field message_data) as [field|] eqn:Hm.
    { rewrite (collect_invalid _ _ _ Hm). simpl. rewrite new_calls_same. by inversion 1. }
    destruct (collect_spec w message_data Hm)
      as (_ & [(_ & _ & _ & Hcalls & _)|(_ & evs & Hcalls & _ & Hres)]).
    { rewrite (new_calls_app _ _ [] ) by (by rewrite app_nil_r). by inversion 1. }
    rewrite (new_calls_app _ _ _ Hcalls).
    destruct Hres as [(_ & Hok & _)|(Hraise & _)]; [|done].
    intros Hex. destruct (Forall_ok_not_Exists_error _ Hok Hex).
  - intros w.
    apply (flush_delegate_swallows
             DatabaseManager.GetMessagesStatistics
             DatabaseManager.get_messages_statistics
             (fun statistics =>
                bind (get _message_cache)
                     (fun cache =>
                        ret (<["cache_size" := VInt (Z.of_nat (length cache))]> statistics)))
             ∅).
    reflexivity.
  - intros group_id limit w. unfold storage_fault_in,
      get_recent_filtered_messages, try_except, bind.
    intros Hex.
    assert (Hf := db_call_fault (DatabaseManager.GetRecentFilteredMessages group_id limit)
                    (DatabaseManager.get_recent_filtered_messages group_id limit) w).
    destruct (db_call _ _ w) as [[l|e] w1]; simpl in *; [|done].
    destruct (Hf Hex) as [e He]. discriminate.
  - intros w _. unfold save_state, try_except.
    by destruct (_flush_message_cache w) as [[[]|e] w1].
Qed.

End CollectorProperties.

(** * Properties of the persona update protocol *)

Section PersonaProperties.

Import PersonaManager.

Lemma get_backup_last (s : store) (snapshot : Dict) b :
  get_backup (Z.of_nat (S (length (backups s))))
             (mkStore (current s) (backups s ++ [snapshot]) b) = Some snapshot.
Proof.
  unfold get_backup. simpl backups.
  replace (1 <=? Z.of_nat (S (length (backups s))))%Z with true
    by (symmetry; apply Z.leb_le; lia).
  replace (Z.to_nat (Z.of_nat (S (length (backups s))) - 1)) with (length (backups s)) by lia.
  by rewrite list_lookup_middle.
Qed.

(** C8.  In the update attempt the first call made on the persona manager
    is [backup_persona], on the state the attempt starts from.  When it
    raises, the attempt is aborted, no other call is made and the state is
    what the failed backup left; when it returns an id, every later call
    that writes the persona comes after it in the trace and a restore names
    that id.  On the backup manager of the spec this means: a failed backup
    leaves persona and backups exactly as they were; otherwise the snapshot
    stored under the returned id is the persona from before the attempt and
    is still retrievable at the end, whatever the attempt did afterwards; a
    failed update leaves the persona as it was; a commit leaves the updated
    persona, which the quality monitor passed; a rollback gives back the
    persona from before the attempt. *)
Theorem backup_precedes_persona_update :
  (forall St (manager : IPersonaManager St) (persona : St -> Dict)
          (passes : Dict -> Dict -> bool) reason style_data messages (s : St) trace,
     let result := (update_attempt persona passes reason style_data messages (s, trace)).1 in
     let s' := (update_attempt persona passes reason style_data messages (s, trace)).2.1 in
     let trace' := (update_attempt persona passes reason style_data messages (s, trace)).2.2 in
     exists rest,
       trace' = trace ++ Backed reason (backup_persona reason s).1 :: rest /\
       match (backup_persona reason s).1 with
       | Raise e => result = Aborted e /\ rest = [] /\ s' = (backup_persona reason s).2
       | Return backup_id =>
           (forall e, result <> Aborted e) /\
           Forall (fun ev => writes_persona ev = true /\
                             forall id r, ev = Restored id r -> id = backup_id) rest
       end) /\
  (forall (passes : Dict -> Dict -> bool) reason style_data messages (s : store) trace,
     let result := (update_attempt current passes reason style_data messages (s, trace)).1 in
     let s' := (update_attempt current passes reason style_data messages (s, trace)).2.1 in
     match result with
     | Aborted e => current s' = current s /\ backups s' = backups s
     | UpdateFailed backup_id _ =>
         get_backup backup_id s' = Some (current s) /\ current s' = current s
     | Committed backup_id =>
         get_backup backup_id s' = Some (current s) /\
         current s' = style_data ∪ current s /\
         passes (current s) (current s') = true
     | RolledBack backup_id =>
         get_backup backup_id s' = Some (current s) /\ current s' = current s
     | RestoreFailed backup_id _ => False
     end).
Proof.
  split.
  - intros St manager persona passes reason style_data messages s trace. cbv zeta.
    unfold update_attempt, backup, update, restore. simpl.
    destruct (backup_persona reason s) as [[backup_id|e] s1]; simpl.
    + destruct (update_persona style_data messages s1) as [[[|]|e] s2]; simpl.
      * destruct (passes (persona s) (persona s2)); simpl.
        -- eexists. split; [by rewrite <- app_assoc|].
           split; [done|]. repeat constructor. by intros ? ? [=].
        -- destruct (restore_persona backup_id s2) as [[[|]|e] s3]; simpl;
             (eexists; split; [by rewrite <- !app_assoc|];
              split; [done|]; repeat constructor;
              by intros ? ? [=]).
      * eexists. split; [by rewrite <- app_assoc|].
        split; [done|]. repeat constructor. by intros ? ? [=].
      * eexists. split; [by rewrite <- app_assoc|].
        split; [done|]. repeat constructor. by intros ? ? [=].
    + exists []. by repeat split.
  - intros passes reason style_data messages [c bs g] trace. cbv zeta.
    assert (Hsnap : forall c' g',
              get_backup (Z.of_nat (S (length bs))) (mkStore c' (bs ++ [c]) g') = Some c).
    { intros c' g'. apply (get_backup_last (mkStore c' bs g')). }
    unfold update_attempt, backup, update, restore.
    destruct g as [[|[|n]]|]; cbn -[get_backup Z.of_nat].
    + done.
    + split; [apply Hsnap|reflexivity].
    + destruct (passes c (style_data ∪ c)) eqn:Hpass.
      * cbn -[get_backup Z.of_nat]. split; [apply Hsnap|]. by split.
      * rewrite Hsnap. cbn -[get_backup Z.of_nat]. split; [apply Hsnap|reflexivity].
    + destruct (passes c (style_data ∪ c)) eqn:Hpass.
      * cbn -[get_backup Z.of_nat]. split; [apply Hsnap|]. by split.
      * rewrite Hsnap. cbn -[get_backup Z.of_nat]. split; [apply Hsnap|reflexivity].
Qed.

End PersonaProperties.

(** * The theorems at concrete worlds *)

Import Examples.

Lemma message_complete n : missing_field (message n) = None.
Proof. reflexivity. Qed.

Lemma messages_complete n : Forall (fun m => missing_field m = None) (messages n).
Proof.
  apply Forall_forall. intros m Hin.
  apply list_elem_of_fmap in Hin as (k & -> & _). apply message_complete.
Qed.

(** On the reference storage with an unlimited budget and nothing marked as
    processed, every raw message is unprocessed. *)
Lemma unprocessed_all (d : MemoryStore.t) :
  MemoryStore.processed d = [] -> MemoryStore.unprocessed d = MemoryStore.raw d.
Proof.
  intros Hp. unfold MemoryStore.unprocessed. rewrite Hp.
  assert (Haux : forall (l : list Dict) (f : nat -> Dict -> Z * Dict),
            (forall i m, (f i m).2 = m) ->
            map snd (List.filter (fun im => negb (bool_decide (im.1 ∈ @nil Z)))
                                 (imap f l)) = l).
  { induction l as [|m l IH]; intros f Hf; [reflexivity|].
    simpl. rewrite Hf. f_equal. apply IH. intros i m'. apply Hf. }
  by apply Haux.
Qed.

Lemma memory_store_faithful :
  faithful_storage
    (fun d => MemoryStore.budget d = None /\ MemoryStore.processed d = [])
    (fun d m => m ∈ MemoryStore.unprocessed d).
Proof.
  split.
  - intros msg d [Hb Hp]. eexists. split.
    + simpl. unfold MemoryStore.guarded. rewrite Hb. reflexivity.
    + simpl. split; [by split|].
      rewrite !unprocessed_all by done. simpl.
      split; [apply elem_of_app; right; by apply list_elem_of_singleton|].
      intros m Hin. apply elem_of_app. by left.
  - intros d [Hb Hp]. eexists _, _. split.
    + simpl. unfold MemoryStore.guarded. rewrite Hb. reflexivity.
    + done.
Qed.

(** A first message is buffered: nothing is written. *)
Example first_message_is_buffered :
  let w := (collect_message (message 1) steady).2 in
  _message_cache w = [message 1] /\ calls w = [] /\
  MemoryStore.raw (database_manager w) = [].
Proof. repeat split; reflexivity. Qed.

(** With a minute between two clock readings the first message is flushed
    by the call that collects it. *)
Example slow_clock_flushes_at_once :
  let w := (collect_message (message 1) (service None minutes)).2 in
  _message_cache w = [] /\
  calls w = [ok (DatabaseManager.SaveRawMessage (message 1))] /\
  MemoryStore.raw (database_manager w) = [message 1] /\
  _last_flush_time w = minutes 2.
Proof. repeat split; reflexivity. Qed.

(** A read finds the message that was only buffered. *)
Example read_after_collect :
  (get_unprocessed_messages None (collect_message (message 1) steady).2).1
    = Return [message 1].
Proof. repeat split; reflexivity. Qed.

(** With the storage down, the flush of [save_state] fails, the buffer is
    kept and [save_state] returns normally. *)
Example save_state_on_failing_storage :
  let w := (collect_message (message 1) (flaky 0)).2 in
  (_flush_message_cache w).1 =
    Raise (DataStorageError ("消息缓存刷新失败: " +:+ "storage unavailable")) /\
  (save_state w).1 = Return tt /\
  _message_cache (save_state w).2 = [message 1].
Proof. repeat split; reflexivity. Qed.

(** On a storage that never fails no call of a run raises. *)
Lemma steady_run_ok msgs :
  (MemoryStore.budget (database_manager (collect_all msgs steady)) = None /\
   MemoryStore.processed (database_manager (collect_all msgs steady)) = []) /\
  Forall ev_ok (calls (collect_all msgs steady)).
Proof.
  pose proof (collect_all_healthy _ _ memory_store_faithful msgs steady) as Hok.
  unfold new_calls in Hok. simpl in Hok. rewrite drop_0 in Hok.
  apply Hok. split; reflexivity.
Qed.

(** On a storage that never fails [get_statistics] reports an empty buffer. *)
Lemma healthy_statistics (w : @World MemoryStore.t) :
  MemoryStore.budget (database_manager w) = None /\
  MemoryStore.processed (database_manager w) = [] ->
  exists statistics,
    (get_statistics w).1 = Return statistics /\
    statistics !! "cache_size" = Some (VInt 0).
Proof.
  intros Hh.
  destruct (flush_faithful _ _ memory_store_faithful w Hh) as (Hok & (Hb & _) & Hcache & _).
  unfold get_statistics, try_except, bind.
  destruct (_flush_message_cache w) as [r w1]. simpl in *. subst r.
  destruct (db_call_spec DatabaseManager.GetMessagesStatistics
              DatabaseManager.get_messages_statistics w1) as ((Hc & _) & Hr & _).
  simpl in Hr. unfold MemoryStore.guarded in Hr. rewrite Hb in Hr. simpl in Hr.
  destruct (db_call _ _ w1) as [r w2]. simpl in *. subst r. simpl.
  eexists. split; [reflexivity|].
  rewrite Hc, Hcache. apply lookup_insert_eq.
Qed.

Lemma flush_failure_keeps_buffer_witness :
  let w := (collect_message (message 1) (flaky 0)).2 in
  raises_DataStorageError _flush_message_cache w /\
  _message_cache (_flush_message_cache w).2 = [message 1].
Proof.
  intros w. destruct (flush_failure_keeps_buffer w) as (Hraise & Hcache & _).
  - unfold storage_fault_in. vm_compute. apply Exists_cons_hd. discriminate.
  - split; [exact Hraise|exact Hcache].
Defined.

Lemma collect_flushes_iff_due_witness :
  (let w' := (collect_message (message 1) steady).2 in
   (collect_message (message 1) steady).1 = Return true /\
   new_calls steady w' = [] /\ _message_cache w' = [message 1]) /\
  (let w := service None minutes in
   let w' := (collect_message (message 1) w).2 in
   new_calls w w' = [ok (DatabaseManager.SaveRawMessage (message 1))] /\
   _message_cache w' = []) /\
  (let w := service (Some 0%nat) minutes in
   let w' := (collect_message (message 1) w).2 in
   (exists text, (collect_message (message 1) w).1 = Raise (MessageCollectionError text)) /\
   _message_cache w' = [message 1]).
Proof.
  split; [|split].
  - intros w'.
    destruct (collect_flushes_iff_due ∅ (MemoryStore.empty None) still steady (message 1))
      as (_ & _ & _ & Hquiet); [reflexivity|].
    destruct Hquiet as (Hr & Hcalls & Hcache & _); [|by repeat split].
    intros [Hsize|Htime].
    + vm_compute in Hsize. by apply Hsize.
    + vm_compute in Htime. discriminate.
  - intros w w'.
    destruct (collect_flushes_iff_due ∅ (MemoryStore.empty None) minutes w (message 1))
      as (_ & _ & Hdue & _); [reflexivity|].
    destruct Hdue as (_ & [(_ & Hcalls & Hcache & _)|([text Hraise] & _)]).
    + right. reflexivity.
    + split; [exact Hcalls|exact Hcache].
    + discriminate Hraise.
  - intros w w'.
    destruct (collect_flushes_iff_due ∅ (MemoryStore.empty (Some 0%nat)) minutes w (message 1))
      as (_ & _ & Hdue & _); [reflexivity|].
    destruct Hdue as (_ & [(Hr & _)|(Hraise & _ & Hcache & _)]).
    + right. reflexivity.
    + discriminate Hr.
    + split; [exact Hraise|exact Hcache].
Defined.


Lemma one_flush_in_150_then_statistics_flush_witness :
  let w := collect_all (messages 150) steady in
  calls w = map ok (map DatabaseManager.SaveRawMessage (take 100 (messages 150))) /\
  _message_cache w = drop 100 (messages 150) /\
  exists statistics,
    (get_statistics w).1 = Return statistics /\
    statistics !! "cache_size" = Some (VInt 0) /\
    new_calls w (get_statistics w).2 =
      map ok (map DatabaseManager.SaveRawMessage (drop 100 (messages 150))) ++
      [ok DatabaseManager.GetMessagesStatistics].
Proof.
  intros w.
  destruct (steady_run_ok (messages 150)) as (Hhealthy & Hok).
  pose proof (one_flush_in_150_then_statistics_flush
                ∅ (MemoryStore.empty None) still (messages 150)
                eq_refl (messages_complete 150)
                (fun i j => ltac:(unfold still; lia)) Hok) as Hthm.
  assert (Hh : MemoryStore.budget (database_manager w) = None /\
               MemoryStore.processed (database_manager w) = []) by exact Hhealthy.
  change (collect_all (messages 150) (__init__ ∅ (MemoryStore.empty None) still))
    with w in Hthm.
  clear Hhealthy Hok.
  destruct Hthm as ((_ & _ & Hcalls) & (Hcache & _) & _ & st & Hst & _ & Hcase).
  split; [exact Hcalls|]. split; [exact Hcache|].
  clearbody w.
  destruct (healthy_statistics w Hh) as (st' & Hst' & Hsize).
  rewrite Hst in Hst'. injection Hst' as <-.
  exists st. split; [exact Hst|]. split; [exact Hsize|].
  destruct Hcase as [(_ & ->)|(_ & Hnew & _)]; [|exact Hnew].
  by rewrite lookup_empty in Hsize.
Defined.

Lemma collect_rejects_incomplete_message_witness :
  collect_message ∅ steady = (Return false, steady).
Proof.
  apply (collect_rejects_incomplete_message steady ∅ "sender_id").
  - apply list_elem_of_here.
  - reflexivity.
Defined.

Lemma storage_faults_by_operation_witness :
  raises_DataStorageError (get_unprocessed_messages None) (flaky 0) /\
  (exists text,
     (collect_message (message 1) (service (Some 0%nat) minutes)).1 =
       Raise (MessageCollectionError text)) /\
  (get_statistics (flaky 0)).1 = Return ∅ /\
  (get_recent_filtered_messages "g" 5 (flaky 0)).1 = Return [] /\
  (save_state (collect_message (message 1) (flaky 0)).2).1 = Return tt.
Proof.
  destruct (@storage_faults_by_operation MemoryStore.t _)
    as ((_ & Hread & _) & Hcollect & Hstats & Hrecent & Hsave).
  assert (Hfault : forall (evs : list event) c e,
            Exists (fun ev => ev_error ev <> None) (Event c (Some e) :: evs)).
  { intros. by apply Exists_cons_hd. }
  repeat apply conj.
  - apply Hread. unfold storage_fault_in. vm_compute. apply Hfault.
  - apply Hcollect. unfold storage_fault_in. vm_compute. apply Hfault.
  - apply Hstats. unfold storage_fault_in. vm_compute. apply Hfault.
  - apply Hrecent. unfold storage_fault_in. vm_compute. apply Hfault.
  - apply Hsave. unfold storage_fault_in. vm_compute. apply Hfault.
Defined.

Lemma flush_empty_buffer_is_noop_witness :
  _flush_message_cache steady = (Return tt, steady) /\
  let w := (collect_message (message 1) steady).2 in
  _flush_message_cache (_flush_message_cache w).2 =
    (Return tt, (_flush_message_cache w).2).
Proof.
  split.
  - apply (proj1 (flush_empty_buffer_is_noop steady)). reflexivity.
  - intros w. apply (proj2 (flush_empty_buffer_is_noop w)). reflexivity.
Defined.

Lemma buffer_stays_below_limit_witness :
  Z.of_nat (length (_message_cache (collect_all (messages 150) steady))) < 100.
Proof.
  apply (buffer_stays_below_limit ∅ (MemoryStore.empty None) still (messages 150)).
  apply (steady_run_ok (messages 150)).
Defined.

Lemma backup_precedes_persona_update_witness :
  let persona := <["tone" := VStr "calm"]> ∅ : Dict in
  let style := <["tone" := VStr "loud"]> ∅ : Dict in
  let attempt passes budget :=
    PersonaManager.update_attempt PersonaManager.current passes "pre-update" style []
      (PersonaManager.mkStore persona [] budget, []) in
  (* the storage is down: the attempt is aborted and nothing changes *)
  ((attempt (fun _ _ => true) (Some 0%nat)).1
     = PersonaManager.Aborted PersonaManager.unavailable /\
   PersonaManager.current (attempt (fun _ _ => true) (Some 0%nat)).2.1 = persona /\
   (attempt (fun _ _ => true) (Some 0%nat)).2.2
     = [PersonaManager.Backed "pre-update" (Raise PersonaManager.unavailable)]) /\
  (* the update passes: backup 1 holds the old persona, the new one is current *)
  ((attempt (fun _ _ => true) None).1 = PersonaManager.Committed 1 /\
   PersonaManager.get_backup 1 (attempt (fun _ _ => true) None).2.1 = Some persona /\
   PersonaManager.current (attempt (fun _ _ => true) None).2.1 = style ∪ persona) /\
  (* the update is rejected: the old persona is restored from backup 1 *)
  ((attempt (fun _ _ => false) None).1 = PersonaManager.RolledBack 1 /\
   PersonaManager.current (attempt (fun _ _ => false) None).2.1 = persona /\
   (attempt (fun _ _ => false) None).2.2
     = [PersonaManager.Backed "pre-update" (Return 1);
        PersonaManager.Updated style [] (Return true);
        PersonaManager.Restored 1 (Return true)]).
Proof.
  intros persona style attempt.
  destruct backup_precedes_persona_update as (Htrace & Hstate).
  split; [|split].
  - pose proof (Hstate (fun _ _ => true) "pre-update" style []
                  (PersonaManager.mkStore persona [] (Some 0%nat)) []) as Hs.
    destruct (Htrace _ _ PersonaManager.current (fun _ _ => true) "pre-update" style []
                (PersonaManager.mkStore persona [] (Some 0%nat)) [])
      as (rest & Ht & Hr & -> & _).
    split; [exact Hr|]. split; [|exact Ht].
    fold (attempt (fun _ _ => true) (Some 0%nat)) in Hs.
    change ((attempt (fun _ _ => true) (Some 0%nat)).1)
      with (PersonaManager.Aborted PersonaManager.unavailable) in Hs.
    exact (proj1 Hs).
  - pose proof (Hstate (fun _ _ => true) "pre-update" style []
                  (PersonaManager.mkStore persona [] None) []) as Hs.
    fold (attempt (fun _ _ => true) None) in Hs.
    change ((attempt (fun _ _ => true) None).1) with (PersonaManager.Committed 1) in Hs.
    destruct Hs as (Hb & Hc & _). by repeat split.
  - pose proof (Hstate (fun _ _ => false) "pre-update" style []
                  (PersonaManager.mkStore persona [] None) []) as Hs.
    destruct (Htrace _ _ PersonaManager.current (fun _ _ => false) "pre-update" style []
                (PersonaManager.mkStore persona [] None) []) as (rest & Ht & _).
    fold (attempt (fun _ _ => false) None) in Hs.
    change ((attempt (fun _ _ => false) None).1) with (PersonaManager.RolledBack 1) in Hs.
    destruct Hs as (_ & Hc). split; [reflexivity|]. split; [exact Hc|reflexivity].
Defined.

(** ** Where the code departs from the claims *)

(** C4 as stated fails: after 150 messages the buffer holds 50, but
    [get_statistics] flushes them before it counts; it reports [cache_size]
    0, not 50. *)
Lemma statistics_after_150_do_not_report_50 :
  let w := collect_all (messages 150) steady in
  length (_message_cache w) = 50%nat /\
  (exists statistics,
     (get_statistics w).1 = Return statistics /\
     statistics !! "cache_size" = Some (VInt 0)) /\
  ~ exists statistics,
      (get_statistics w).1 = Return statistics /\
      statistics !! "cache_size" = Some (VInt 50).
Proof.
  intros w.
  assert (Hlen : length (messages 150) = 150%nat) by reflexivity.
  assert (Hclk : forall i j, still i - still j <= 30) by (intros; unfold still; lia).
  destruct (steady_run_ok (messages 150)) as (Hhealthy & Hok).
  destruct (collect_150 ∅ (MemoryStore.empty None) still (messages 150)
              Hlen (messages_complete 150) Hclk Hok)
    as (_ & _ & H50).
  split; [exact H50|].
  assert (Hh : MemoryStore.budget (database_manager w) = None /\
               MemoryStore.processed (database_manager w) = []) by exact Hhealthy.
  clear H50 Hhealthy Hok. clearbody w.
  destruct (healthy_statistics w Hh) as (st & Hst & H0).
  split; [by exists st|].
  intros (st' & Hst' & H50).
  rewrite Hst in Hst'. injection Hst' as <-.
  rewrite H0 in H50. discriminate.
Qed.

(** C6 as stated fails: with the storage down, [get_statistics] meets a
    storage failure and returns the empty mapping instead of raising. *)
Lemma get_statistics_swallows_storage_fault :
  storage_fault_in get_statistics (flaky 0) /\
  (get_statistics (flaky 0)).1 = Return ∅ /\
  ~ raises_DataStorageError get_statistics (flaky 0).
Proof.
  split; [|split].
  - unfold storage_fault_in. vm_compute. apply Exists_cons_hd. discriminate.
  - reflexivity.
  - intros [text Hraise]. discriminate.
Qed.

(** * Further properties of the message collector *)

Section CollectorSteps.

Context {DB : Type} `{!DatabaseManager.t DB}.

Local Abbreviation world := (@World DB).
Implicit Types (w : world) (msgs : list Dict) (evs : list event).
Implicit Types (op : operation) (ops : list operation).

Lemma same_settings_refl w : same_settings w w.
Proof. by repeat split. Qed.

Lemma same_settings_trans w1 w2 w3 :
  same_settings w1 w2 -> same_settings w2 w3 -> same_settings w1 w3.
Proof.
  unfold same_settings. intros (?&?&?&?) (?&?&?&?). repeat split; congruence.
Qed.

(** The three ways a flush can go. *)
Lemma flush_shape w :
  same_settings w (_flush_message_cache w).2 /\
  exists evs,
    calls (_flush_message_cache w).2 = calls w ++ evs /\
    map ev_call evs = map DatabaseManager.SaveRawMessage (_message_cache w) /\
    ((evs = [] /\ _flush_message_cache w = (Return tt, w))
     \/
     ((_flush_message_cache w).1 = Return tt /\ Forall ev_ok evs /\
      _message_cache (_flush_message_cache w).2 = [])
     \/
     ((exists text, (_flush_message_cache w).1 = Raise (DataStorageError text)) /\
      Exists (fun ev => ev_error ev <> None) evs /\
      _message_cache (_flush_message_cache w).2 = _message_cache w /\
      _last_flush_time (_flush_message_cache w).2 = _last_flush_time w)).
Proof.
  destruct (_message_cache w) as [|msg msgs] eqn:Ec.
  - rewrite flush_empty by done. split; [apply same_settings_refl|].
    exists []. rewrite app_nil_r. repeat split. by left.
  - destruct (flush_spec w) as (evs & Hc & Hm & Hs & Hres); [by rewrite Ec|].
    split; [exact Hs|]. exists evs. rewrite <- Ec. repeat split; try assumption.
    destruct Hres as [(Hr & Hok & Hcache & _)|([e He] & Hex & Ha)].
    + right. left. by repeat split.
    + right. right. destruct Ha as (Hcache & _ & Hlast & _).
      split; [by eexists|]. by repeat split.
Qed.

Lemma flush_transition w :
  transition (_message_cache w) w (_flush_message_cache w).2.
Proof.
  destruct (flush_shape w) as (Hs & evs & Hc & Hm & Hres).
  split; [exact Hs|]. exists evs, []. rewrite app_nil_r.
  split; [exact Hc|]. split; [constructor|]. split; [simpl; lia|].
  destruct Hres as [(-> & ->)|[(_ & Hok & Hcache)|(_ & Hex & Hcache & Hlast)]].
  - by left.
  - right. left. by repeat split.
  - right. right. by repeat split.
Qed.

Lemma not_write_event c (err : option exn) :
  (forall msg, c <> DatabaseManager.SaveRawMessage msg) ->
  written (Event c err) = None.
Proof.
  intros Hc. unfold written. simpl. destruct c; try reflexivity. by destruct (Hc msg).
Qed.

(** A single storage call that is not a write. *)
Lemma db_call_transition {A} c (method : DB -> outcome A * DB) w :
  (forall msg, c <> DatabaseManager.SaveRawMessage msg) ->
  transition (_message_cache w) w (db_call c method w).2.
Proof.
  intros Hc. destruct (db_call_spec c method w) as (Ha & _ & _ & Hcalls).
  pose proof (same_attributes_settings _ _ Ha) as Hs.
  destruct Ha as (Hcache & _ & Hlast & _).
  split; [exact Hs|]. exists [], [Event c (raised (db_call c method w).1)].
  split; [exact Hcalls|]. split.
  { constructor; [|constructor]. by apply not_write_event. }
  split; [simpl; lia|]. by left.
Qed.

(** [try: await self._flush_message_cache(); x = await db.method(...); k x
     except: h], where [k] makes no storage call and [h] changes nothing. *)
Lemma flush_then_transition {A B} c (method : DB -> outcome A * DB)
    (k : A -> M B) (h : exn -> M B) w :
  (forall msg, c <> DatabaseManager.SaveRawMessage msg) ->
  (forall a w1,
     calls (k a w1).2 = calls w1 /\ same_settings w1 (k a w1).2 /\
     _last_flush_time (k a w1).2 = _last_flush_time w1 /\
     (_message_cache (k a w1).2 = _message_cache w1 \/ _message_cache (k a w1).2 = [])) ->
  (forall e w1, (h e w1).2 = w1) ->
  transition (_message_cache w) w
    (try_except (bind _flush_message_cache (fun _ => bind (db_call c method) k)) h w).2.
Proof.
  intros Hc Hk Hh.
  destruct (flush_shape w) as (Hs & evs & Hcalls & Hm & Hres).
  unfold try_except, bind.
  destruct (_flush_message_cache w) as [r w1]. simpl in *.
  assert (Hstep : r = Return tt ->
            exists rest w2,
              (let (o, w') := let (o, w') := db_call c method w1 in
                              match o with
                              | Return a => k a w'
                              | Raise e => (Raise e, w')
                              end in
               match o with
               | Return a => (Return a, w')
               | Raise e => h e w'
               end).2 = w2 /\
              calls w2 = calls w1 ++ rest /\
              Forall (fun ev => written ev = None) rest /\ (length rest <= 1)%nat /\
              same_settings w1 w2 /\
              _last_flush_time w2 = _last_flush_time w1 /\
              (_message_cache w2 = _message_cache w1 \/ _message_cache w2 = [])).
  { intros _.
    destruct (db_call_spec c method w1) as (Ha & _ & _ & Hc1).
    pose proof (same_attributes_settings _ _ Ha) as Hs1.
    destruct Ha as (Hcache1 & _ & Hlast1 & _).
    pose proof (not_write_event c (raised (db_call c method w1).1) Hc) as Hw1.
    destruct (db_call c method w1) as [[a|e] w2]; simpl in *.
    - destruct (Hk a w2) as (Hkc & Hks & Hkl & Hkb).
      destruct (k a w2) as [[b|e] w3]; simpl in *; rewrite ?Hh;
        (eexists _, w3; split; [reflexivity|]; split; [by rewrite Hkc, Hc1|];
         split; [constructor; [exact Hw1|constructor]|]; split; [simpl; lia|];
         split; [by eapply same_settings_trans|]; split; [congruence|];
         destruct Hkb; [left; congruence|by right]).
    - rewrite Hh. eexists _, w2. split; [reflexivity|]. split; [exact Hc1|].
      split; [constructor; [exact Hw1|constructor]|]. split; [simpl; lia|].
      split; [exact Hs1|]. split; [exact Hlast1|]. by left. }
  destruct Hres as [(-> & [= -> ->])|[(-> & Hok & Hcache)|([text ->] & Hex & Hcache & Hlast)]].
  - destruct Hstep as (rest & w2 & -> & Hc2 & Hw & Hl & Hs2 & Hlast & Hb); [done|].
    split; [exact Hs2|]. exists [], rest. split; [exact Hc2|].
    split; [assumption|]. split; [assumption|]. left.
    split; [reflexivity|]. split; [|exact Hlast].
    destruct Hb as [Hb|Hb]; [exact Hb|]. rewrite Hb. symmetry.
    by destruct (_message_cache w).
  - destruct Hstep as (rest & w2 & -> & Hc2 & Hw & Hl & Hs2 & _ & Hb); [done|].
    split; [by eapply same_settings_trans|]. exists evs, rest.
    split; [by rewrite Hc2, Hcalls, app_assoc|].
    split; [assumption|]. split; [assumption|]. right. left.
    split; [exact Hm|]. split; [exact Hok|].
    destruct Hb as [Hb|Hb]; [by rewrite Hb|exact Hb].
  - rewrite Hh. split; [exact Hs|]. exists evs, []. rewrite app_nil_r.
    split; [exact Hcalls|]. split; [constructor|]. split; [simpl; lia|].
    right. right. by repeat split.
Qed.

Lemma collect_transition w message_data :
  missing_field message_data = None ->
  transition (_message_cache w ++ [message_data]) w (collect_message message_data w).2.
Proof.
  intros Hm.
  destruct (collect_spec w message_data Hm)
    as (Hs & [(_ & _ & Hcache & Hcalls & Hlast & _)|(_ & evs & Hcalls & Hmap & Hres)]).
  - split; [exact Hs|]. exists [], []. rewrite Hcalls.
    split; [by rewrite app_nil_r|]. split; [constructor|]. split; [simpl; lia|].
    by left.
  - split; [exact Hs|]. exists evs, []. rewrite app_nil_r.
    split; [exact Hcalls|]. split; [constructor|]. split; [simpl; lia|].
    destruct Hres as [(_ & Hok & Hcache & _)|(_ & Hex & Hcache & Hlast)].
    + right. left. by repeat split.
    + right. right. by repeat split.
Qed.

Lemma transition_refl w : transition (_message_cache w) w w.
Proof.
  split; [apply same_settings_refl|]. exists [], []. rewrite app_nil_r.
  split; [reflexivity|]. split; [constructor|]. split; [simpl; lia|]. by left.
Qed.

(** Every call of a public method is a step of that shape. *)
Lemma perform_transition op w :
  transition (_message_cache w ++ accepted [op]) w (perform op w).
Proof.
  assert (Hret : forall A (a : A) (w1 : world),
            calls (ret a w1).2 = calls w1 /\ same_settings w1 (ret a w1).2 /\
            _last_flush_time (ret a w1).2 = _last_flush_time w1 /\
            (_message_cache (ret a w1).2 = _message_cache w1 \/
             _message_cache (ret a w1).2 = [])).
  { intros. simpl. split; [reflexivity|]. split; [apply same_settings_refl|]. by auto. }
  destruct op; simpl; unfold accepted; simpl; rewrite ?app_nil_r.
  - destruct (missing_field message_data) as [field|] eqn:Hm.
    + rewrite (collect_invalid _ _ _ Hm). simpl. rewrite app_nil_r. apply transition_refl.
    + simpl. by apply collect_transition.
  - apply (flush_then_transition (DatabaseManager.GetUnprocessedMessages limit)
             (DatabaseManager.get_unprocessed_messages limit)
             (fun messages => ret messages)); [done|intros; apply Hret|done].
  - unfold add_filtered_message, try_except, bind.
    pose proof (db_call_transition (DatabaseManager.AddFilteredMessage filtered_data)
                  (DatabaseManager.add_filtered_message filtered_data) w) as Ht.
    destruct (db_call _ _ w) as [[[]|e] w1]; by apply Ht.
  - unfold mark_messages_processed, try_except.
    destruct message_ids as [|id ids]; [apply transition_refl|].
    pose proof (db_call_transition (DatabaseManager.MarkMessagesProcessed (id :: ids))
                  (DatabaseManager.mark_messages_processed (id :: ids)) w) as Ht.
    destruct (db_call _ _ w) as [[[]|e] w1]; by apply Ht.
  - unfold get_filtered_messages_for_learning, try_except, bind.
    pose proof (db_call_transition (DatabaseManager.GetFilteredMessagesForLearning limit)
                  (DatabaseManager.get_filtered_messages_for_learning limit) w) as Ht.
    destruct (db_call _ _ w) as [[l|e] w1]; by apply Ht.
  - unfold get_recent_filtered_messages, try_except, bind.
    pose proof (db_call_transition (DatabaseManager.GetRecentFilteredMessages group_id limit)
                  (DatabaseManager.get_recent_filtered_messages group_id limit) w) as Ht.
    destruct (db_call _ _ w) as [[l|e] w1]; by apply Ht.
  - apply (flush_then_transition DatabaseManager.GetMessagesStatistics
             DatabaseManager.get_messages_statistics
             (fun statistics =>
                bind (get _message_cache)
                     (fun cache =>
                        ret (<["cache_size" := VInt (Z.of_nat (length cache))]> statistics)))
             (fun _ => ret ∅)); [done| |done].
    intros. simpl. split; [reflexivity|]. split; [apply same_settings_refl|]. by auto.
  - apply (flush_then_transition DatabaseManager.ExportMessagesLearningData
             DatabaseManager.export_messages_learning_data
             (fun learning_data =>
                bind (get config)
                     (fun cfg => ret (<["config" := VDict cfg]> learning_data))));
      [done| |done].
    intros. simpl. split; [reflexivity|]. split; [apply same_settings_refl|]. by auto.
  - apply (flush_then_transition DatabaseManager.ClearAllMessagesData
             DatabaseManager.clear_all_messages_data
             (fun _ => set_message_cache [])); [done| |done].
    intros. simpl. split; [reflexivity|]. split; [by repeat split|]. by auto.
  - unfold save_state, try_except.
    pose proof (flush_transition w) as Ht.
    by destruct (_flush_message_cache w) as [[[]|e] w1].
  - unfold create_learning_batch, try_except, bind.
    pose proof (db_call_transition (DatabaseManager.CreateLearningBatch batch_name)
                  (DatabaseManager.create_learning_batch batch_name) w) as Ht.
    destruct (db_call _ _ w) as [[id|e] w1]; by apply Ht.
  - unfold update_learning_batch, try_except.
    pose proof (db_call_transition (DatabaseManager.UpdateLearningBatch batch_id kwargs)
                  (DatabaseManager.update_learning_batch batch_id kwargs) w) as Ht.
    destruct (db_call _ _ w) as [[[]|e] w1]; by apply Ht.
Qed.

(** *** What the steps keep *)

Lemma saved_app evs evs' : saved (evs ++ evs') = saved evs ++ saved evs'.
Proof. apply omap_app. Qed.

Lemma saved_writes evs msgs :
  map ev_call evs = map DatabaseManager.SaveRawMessage msgs -> saved evs = msgs.
Proof.
  revert msgs. induction evs as [|[c err] evs IH]; intros [|m msgs] Hm; try done.
  simpl in Hm. injection Hm as -> Hm. unfold saved. simpl.
  f_equal. by apply IH.
Qed.

Lemma saved_no_writes evs : Forall (fun ev => written ev = None) evs -> saved evs = [].
Proof.
  induction 1 as [|ev evs Hev _ IH]; [reflexivity|].
  unfold saved in *. simpl. by rewrite Hev.
Qed.

Lemma writes_all_ok evs msgs :
  map ev_call evs = map DatabaseManager.SaveRawMessage msgs ->
  writes_ok evs -> Forall ev_ok evs.
Proof.
  revert msgs. induction evs as [|[c err] evs IH]; intros [|m msgs] Hm Hok; try done.
  simpl in Hm. injection Hm as -> Hm. apply Forall_cons in Hok as [Hev Hok].
  constructor; [|by eapply IH]. apply Hev. unfold written. simpl. by eexists.
Qed.

Lemma transition_extends buffer w w' :
  transition buffer w w' -> exists evs, calls w' = calls w ++ evs.
Proof. intros (_ & evs & rest & Hc & _). by exists (evs ++ rest). Qed.

Lemma transition_buffer buffer w w' :
  transition buffer w w' -> _message_cache w' = buffer \/ _message_cache w' = [].
Proof.
  intros (_ & evs & rest & _ & _ & _ & [(_ & ? & _)|[(_ & _ & ?)|(_ & _ & _ & ? & _)]]);
    by auto.
Qed.

(** Without a failed write, what was written during the step and what is
    buffered after it make up the buffer the step started from. *)
Lemma transition_conservation buffer w w' :
  transition buffer w w' ->
  writes_ok (new_calls w w') ->
  saved (new_calls w w') ++ _message_cache w' = buffer.
Proof.
  intros (_ & evs & rest & Hc & Hrest & _ & Hcase) Hok.
  rewrite (new_calls_app _ _ _ Hc) in Hok |- *.
  rewrite saved_app, (saved_no_writes _ Hrest), app_nil_r.
  apply Forall_app in Hok as [Hok _].
  destruct Hcase as [(-> & -> & _)|[(Hm & _ & ->)|(Hm & Hex & _)]].
  - reflexivity.
  - by rewrite app_nil_r, (saved_writes _ _ Hm).
  - destruct (Forall_ok_not_Exists_error _ (writes_all_ok _ _ Hm Hok) Hex).
Qed.

(** Failed writes or not, a message of the buffer is still buffered after
    the step or a write of it returned during the step. *)
Lemma transition_no_loss buffer w w' m :
  transition buffer w w' ->
  m ∈ buffer ->
  m ∈ _message_cache w' \/ ok (DatabaseManager.SaveRawMessage m) ∈ new_calls w w'.
Proof.
  intros (_ & evs & rest & Hc & _ & _ & Hcase) Hin.
  rewrite (new_calls_app _ _ _ Hc).
  destruct Hcase as [(_ & -> & _)|[(Hm & Hok & _)|(_ & _ & _ & -> & _)]]; try by left.
  right. rewrite (ok_events _ _ Hm Hok). apply elem_of_app. left.
  apply list_elem_of_fmap. exists (DatabaseManager.SaveRawMessage m).
  split; [reflexivity|]. apply list_elem_of_fmap. by exists m.
Qed.

Lemma perform_all_cons op ops w :
  perform_all (op :: ops) w = perform_all ops (perform op w).
Proof. reflexivity. Qed.

Lemma accepted_cons op ops : accepted (op :: ops) = accepted [op] ++ accepted ops.
Proof. unfold accepted. simpl. by destruct (match op with OpCollectMessage _ => _ | _ => _ end). Qed.

Lemma perform_all_extends ops w :
  same_settings w (perform_all ops w) /\
  exists evs, calls (perform_all ops w) = calls w ++ evs.
Proof.
  revert w. induction ops as [|op ops IH]; intros w.
  - split; [apply same_settings_refl|]. exists []. by rewrite app_nil_r.
  - rewrite perform_all_cons.
    destruct (perform_transition op w) as (Hs & evs & rest & Hc & _).
    destruct (IH (perform op w)) as (Hs' & evs' & Hc').
    split; [by eapply same_settings_trans|].
    exists ((evs ++ rest) ++ evs'). by rewrite Hc', Hc, !app_assoc.
Qed.

(** The calls of a sequence, split at its first call. *)
Lemma new_calls_cons op ops w :
  new_calls w (perform_all (op :: ops) w) =
    new_calls w (perform op w) ++ new_calls (perform op w) (perform_all ops (perform op w)).
Proof.
  rewrite perform_all_cons.
  destruct (transition_extends _ _ _ (perform_transition op w)) as (evs & Hc).
  destruct (perform_all_extends ops (perform op w)) as (_ & evs' & Hc').
  rewrite (new_calls_app _ _ _ Hc), (new_calls_app _ _ _ Hc').
  apply new_calls_app. by rewrite Hc', Hc, app_assoc.
Qed.

(** Calls that run one after the other, none of whose writes raises: the
    messages handed to [save_raw_message], in the order of the calls,
    followed by the messages still buffered are the messages buffered at
    the start followed by the complete messages collected since. *)
Lemma written_then_buffered ops w :
  writes_ok (new_calls w (perform_all ops w)) ->
  saved (new_calls w (perform_all ops w)) ++ _message_cache (perform_all ops w) =
    _message_cache w ++ accepted ops.
Proof.
  revert w. induction ops as [|op ops IH]; intros w Hok.
  { simpl. rewrite new_calls_same. unfold accepted. simpl. by rewrite app_nil_r. }
  rewrite new_calls_cons in Hok |- *. rewrite perform_all_cons.
  unfold writes_ok in Hok. apply Forall_app in Hok as [Hok1 Hok2].
  rewrite saved_app, <- app_assoc, (IH _ Hok2), app_assoc.
  rewrite (transition_conservation _ _ _ (perform_transition op w) Hok1).
  by rewrite (accepted_cons op ops), app_assoc.
Qed.

(** X4.  When public methods are called one after the other, no call
    overlapping another, in whatever order, and no write raises, the
    messages handed to [save_raw_message] together with the messages still
    buffered are, counted with multiplicity, the messages that were buffered
    at the start together with the complete messages collected since: each
    is written exactly once or still buffered.  (In which order the writes
    of one flush reach the storage is not said.) *)
Theorem messages_written_exactly_once ops w :
  writes_ok (new_calls w (perform_all ops w)) ->
  (saved (new_calls w (perform_all ops w)) ++ _message_cache (perform_all ops w))
    ≡ₚ (_message_cache w ++ accepted ops).
Proof. intros Hok. by rewrite (written_then_buffered ops w Hok). Qed.

(** X5.  When public methods are called one after the other, no call
    overlapping another, then whatever is called and whichever storage
    calls raise, a message that was buffered at the start or collected since
    (with every required field) is in the buffer at the end or a write of it
    has returned normally. *)
Theorem accepted_message_buffered_or_written ops w m :
  m ∈ _message_cache w ++ accepted ops ->
  m ∈ _message_cache (perform_all ops w) \/
  ok (DatabaseManager.SaveRawMessage m) ∈ new_calls w (perform_all ops w).
Proof.
  revert w. induction ops as [|op ops IH]; intros w Hin.
  { left. unfold accepted in Hin. simpl in Hin. by rewrite app_nil_r in Hin. }
  rewrite new_calls_cons, perform_all_cons.
  rewrite (accepted_cons op ops), app_assoc in Hin.
  apply elem_of_app in Hin as [Hin|Hin].
  - destruct (transition_no_loss _ _ _ _ (perform_transition op w) Hin) as [Hb|Hw].
    + destruct (IH (perform op w)) as [Hb'|Hw'].
      * apply elem_of_app. by left.
      * by left.
      * right. apply elem_of_app. by right.
    + right. apply elem_of_app. by left.
  - destruct (IH (perform op w)) as [Hb'|Hw'].
    + apply elem_of_app. by right.
    + by left.
    + right. apply elem_of_app. by right.
Qed.

Lemma perform_keeps_bound op w :
  0 < _cache_size_limit w ->
  Z.of_nat (length (_message_cache w)) < _cache_size_limit w ->
  writes_ok (new_calls w (perform op w)) ->
  Z.of_nat (length (_message_cache (perform op w))) < _cache_size_limit w.
Proof.
  intros Hpos Hlt Hok.
  assert (Hother : accepted [op] = [] ->
            Z.of_nat (length (_message_cache (perform op w))) < _cache_size_limit w).
  { intros Ha. pose proof (perform_transition op w) as Ht.
    rewrite Ha, app_nil_r in Ht.
    destruct (transition_buffer _ _ _ Ht) as [->| ->]; [assumption|simpl; lia]. }
  destruct op; try (by apply Hother).
  destruct (missing_field message_data) as [field|] eqn:Hm.
  { apply Hother. unfold accepted. simpl. by rewrite Hm. }
  simpl in Hok |- *. clear Hother.
  apply collect_keeps_bound; try assumption.
  destruct (collect_spec w message_data Hm)
    as (_ & [(_ & _ & _ & Hcalls & _)|(_ & evs & Hcalls & Hmap & _)]).
  - rewrite (new_calls_app _ _ []); [constructor|by rewrite app_nil_r].
  - rewrite (new_calls_app _ _ _ Hcalls) in Hok |- *. by eapply writes_all_ok.
Qed.

Lemma perform_all_keeps_bound ops w :
  0 < _cache_size_limit w ->
  Z.of_nat (length (_message_cache w)) < _cache_size_limit w ->
  writes_ok (new_calls w (perform_all ops w)) ->
  Z.of_nat (length (_message_cache (perform_all ops w))) < _cache_size_limit w.
Proof.
  revert w. induction ops as [|op ops IH]; intros w Hpos Hlt Hok; [exact Hlt|].
  rewrite new_calls_cons in Hok. rewrite perform_all_cons.
  unfold writes_ok in Hok. apply Forall_app in Hok as [Hok1 Hok2].
  destruct (perform_transition op w) as ((Hl & _) & _).
  rewrite <- Hl. apply IH.
  - by rewrite Hl.
  - rewrite Hl. by apply perform_keeps_bound.
  - exact Hok2.
Qed.

(** X6.  On a fresh service the buffer holds fewer than 100 messages after
    any sequence of calls of public methods in which no write raised; calls
    other than writes may fail. *)
Theorem buffer_below_limit_under_any_calls (cfg : Dict) (d : DB) (clk : nat -> Z) ops :
  let w' := perform_all ops (__init__ cfg d clk) in
  writes_ok (calls w') ->
  Z.of_nat (length (_message_cache w')) < 100.
Proof.
  cbv zeta. intros Hok.
  apply (perform_all_keeps_bound ops (__init__ cfg d clk)); simpl; try lia.
  unfold new_calls. simpl. by rewrite drop_0.
Qed.

End CollectorSteps.

Section CollectorOperations.

Context {DB : Type} `{!DatabaseManager.t DB}.

Local Abbreviation world := (@World DB).
Implicit Types (w : world) (msgs : list Dict) (evs : list event).
Implicit Types (op : operation) (message_data : Dict).

(** X1.  [collect_message] returns [False] exactly when one of [sender_id],
    [message], [timestamp] is not a key of the mapping: the values and any
    further keys play no part. *)
Theorem collect_returns_false_iff_field_missing w message_data :
  (collect_message message_data w).1 = Return false <->
  exists field, field ∈ required_fields /\ message_data !! field = None.
Proof.
  split.
  - intros Hr. destruct (missing_field message_data) as [field|] eqn:Hm.
    + unfold missing_field in Hm. apply find_some in Hm as [Hin Hb].
      exists field. split; [by apply list_elem_of_In|].
      by apply bool_decide_eq_true in Hb.
    + destruct (collect_spec w message_data Hm)
        as (_ & [(_ & Hr' & _)|(_ & evs & _ & _ & [(Hr' & _)|([text Hr'] & _)])]);
        rewrite Hr in Hr'; discriminate.
  - intros (field & Hin & Hnone).
    destruct (missing_field message_data) as [f|] eqn:Hm.
    + by rewrite (collect_invalid _ _ _ Hm).
    + unfold missing_field in Hm.
      pose proof (find_none _ _ Hm field (proj1 (list_elem_of_In _ _) Hin)) as Hf.
      rewrite bool_decide_eq_false in Hf. contradiction.
Qed.

(** X2.  When [collect_message] raises, the exception is a
    [MessageCollectionError] caused by a failed write, and the message has
    been appended to the buffer all the same, the flush timer keeping its
    value: the message is not lost, and it is written by a later flush. *)
Theorem collect_raise_keeps_message w message_data e :
  (collect_message message_data w).1 = Raise e ->
  let w' := (collect_message message_data w).2 in
  (exists text, e = MessageCollectionError text) /\
  storage_fault_in (collect_message message_data) w /\
  _message_cache w' = _message_cache w ++ [message_data] /\
  _last_flush_time w' = _last_flush_time w.
Proof.
  intros Hr. cbv zeta.
  destruct (missing_field message_data) as [field|] eqn:Hm.
  { by rewrite (collect_invalid _ _ _ Hm) in Hr. }
  destruct (collect_spec w message_data Hm)
    as (_ & [(_ & Hr' & _)|(_ & evs & Hc & _ & [(Hr' & _)|([text Hr'] & Hex & Hcache & Hlast)])]);
    rewrite Hr in Hr'; try discriminate.
  injection Hr' as ->. split; [by eexists|].
  split; [|by split]. unfold storage_fault_in. by rewrite (new_calls_app _ _ _ Hc).
Qed.

(** *** An outage *)

Section Outage.

Context (down : DB -> Prop) (Hout : outage down).

Lemma gather_outage msgs w :
  down (database_manager w) ->
  down (database_manager (gather (map save msgs) w).2) /\
  (msgs <> [] -> exists e, (gather (map save msgs) w).1 = Raise e).
Proof.
  revert w. induction msgs as [|msg msgs IH]; intros w Hd; [done|].
  cbn [map gather].
  destruct (Hout msg (database_manager w) Hd) as (e & d' & Hsave & Hd').
  destruct (db_call_spec (DatabaseManager.SaveRawMessage msg)
              (DatabaseManager.save_raw_message msg) w) as (_ & Hr & Hdb & _).
  fold (save msg) in Hr, Hdb. rewrite Hsave in Hr, Hdb.
  destruct (save msg w) as [r w1]. simpl in Hr, Hdb. subst r.
  rewrite <- Hdb in Hd'. destruct (IH w1 Hd') as (Hd2 & _).
  destruct (gather (map save msgs) w1) as [rs w2]. simpl in *.
  split; [exact Hd2|]. intros _. by eexists.
Qed.

Lemma flush_outage w :
  down (database_manager w) ->
  down (database_manager (_flush_message_cache w).2) /\
  (_message_cache w <> [] ->
   (exists e, (_flush_message_cache w).1 = Raise e) /\
   same_attributes w (_flush_message_cache w).2).
Proof.
  intros Hd. destruct (_message_cache w) as [|msg msgs] eqn:Ec.
  { by rewrite flush_empty. }
  assert (Hne : _message_cache w <> []) by (by rewrite Ec).
  destruct (gather_outage (_message_cache w) w Hd) as (Hd' & Hraise).
  destruct (Hraise Hne) as [e He].
  destruct (flush_spec w Hne) as (evs & _ & _ & _ & Hres).
  rewrite (flush_unfold w Hne) in Hres |- *.
  destruct (gather _ w) as [r w1]. simpl in He, Hd'. subst r. simpl in *.
  split; [exact Hd'|]. intros _. split; [by eexists|].
  destruct Hres as [(Hok & _)|(_ & _ & Ha)]; [discriminate|exact Ha].
Qed.

Lemma collect_outage w message_data :
  down (database_manager w) ->
  missing_field message_data = None ->
  down (database_manager (collect_message message_data w).2) /\
  _message_cache (collect_message message_data w).2 =
    _message_cache w ++ [message_data] /\
  (size_reached w message_data \/ interval_elapsed w ->
   exists text, (collect_message message_data w).1 = Raise (MessageCollectionError text)).
Proof.
  intros Hd Hm. rewrite (collect_valid _ _ Hm). cbv zeta.
  unfold size_reached, interval_elapsed.
  set (w1 := (set_message_cache (_message_cache w ++ [message_data]) w).2).
  assert (Hne : forall w2, _message_cache w2 = _message_cache w ++ [message_data] ->
                           _message_cache w2 <> []).
  { intros w2 ->. by destruct (_message_cache w). }
  destruct (_ >=? _) eqn:Hsize.
  - destruct (flush_outage w1 Hd) as (Hd' & Hfail).
    destruct (Hfail (Hne w1 eq_refl)) as ([e He] & Hcache & _).
    destruct (_flush_message_cache w1) as [r w2]. simpl in *. subst r.
    split; [exact Hd'|]. split; [exact Hcache|]. intros _. by eexists.
  - destruct (_ >? _) eqn:Htime.
    + destruct (flush_outage (time_time w1).2 Hd) as (Hd' & Hfail).
      destruct (Hfail (Hne (time_time w1).2 eq_refl)) as ([e He] & Hcache & _).
      destruct (_flush_message_cache (time_time w1).2) as [r w2]. simpl in *. subst r.
      split; [exact Hd'|]. split; [exact Hcache|]. intros _. by eexists.
    + split; [exact Hd|]. split; [reflexivity|]. intros [Hs|Ht].
      * apply Z.geb_le in Hs. congruence.
      * apply Z.gtb_lt in Ht. congruence.
Qed.

Lemma collect_all_outage msgs w :
  down (database_manager w) ->
  Forall (fun m => missing_field m = None) msgs ->
  down (database_manager (collect_all msgs w)) /\
  _message_cache (collect_all msgs w) = _message_cache w ++ msgs.
Proof.
  revert w. induction msgs as [|m msgs IH]; intros w Hd Hv.
  { simpl. by rewrite app_nil_r. }
  apply Forall_cons in Hv as [Hm Hv]. simpl.
  fold (collect_all msgs (collect_message m w).2).
  destruct (collect_outage w m Hd Hm) as (Hd' & Hcache & _).
  destruct (IH _ Hd' Hv) as (Hd2 & ->). split; [exact Hd2|].
  by rewrite Hcache, <- app_assoc.
Qed.

End Outage.

(** X3.  While the storage is down, so that every write raises, each
    complete message that is collected stays in the buffer: the buffer grows
    by one per call, also beyond the size limit, and a call made with the
    limit reached raises [MessageCollectionError]. *)
Theorem buffer_grows_during_outage (down : DB -> Prop) msgs w :
  outage down ->
  down (database_manager w) ->
  Forall (fun m => missing_field m = None) msgs ->
  _message_cache (collect_all msgs w) = _message_cache w ++ msgs /\
  forall message_data,
    missing_field message_data = None ->
    _cache_size_limit w <= Z.of_nat (length (_message_cache w ++ msgs) + 1) ->
    exists text,
      (collect_message message_data (collect_all msgs w)).1 =
        Raise (MessageCollectionError text).
Proof.
  intros Hout Hd Hv.
  destruct (collect_all_outage down Hout msgs w Hd Hv) as (Hd' & Hcache).
  split; [exact Hcache|].
  intros message_data Hm Hlimit.
  destruct (collect_outage down Hout (collect_all msgs w) message_data Hd' Hm)
    as (_ & _ & Hraise).
  apply Hraise. left. unfold size_reached.
  destruct (collect_all_extends msgs w) as ((-> & _) & _).
  rewrite Hcache. rewrite !length_app in *. simpl. lia.
Qed.

(** *** Calls that do not flush *)

(** X7.  [add_filtered_message], [mark_messages_processed],
    [get_filtered_messages_for_learning], [get_recent_filtered_messages],
    [create_learning_batch] and [update_learning_batch] never touch the
    buffer, the flush timer or the clock, write no raw message and make at
    most one storage call, whether it raises or not. *)
Theorem non_flushing_calls_leave_buffer op w :
  flushes op = false ->
  same_attributes w (perform op w) /\
  (length (new_calls w (perform op w)) <= 1)%nat /\
  saved (new_calls w (perform op w)) = [].
Proof.
  assert (Hcall : forall A c (method : DB -> outcome A * DB) w',
            (forall msg, c <> DatabaseManager.SaveRawMessage msg) ->
            w' = (db_call c method w).2 ->
            same_attributes w w' /\
            (length (new_calls w w') <= 1)%nat /\ saved (new_calls w w') = []).
  { intros A c method w' Hc ->.
    destruct (db_call_spec c method w) as (Ha & _ & _ & Hcalls).
    split; [exact Ha|]. rewrite (new_calls_app _ _ _ Hcalls).
    split; [simpl; lia|]. unfold saved. simpl. by rewrite not_write_event. }
  intros Hf. destruct op; try discriminate; simpl.
  - apply (Hcall _ (DatabaseManager.AddFilteredMessage filtered_data)
             (DatabaseManager.add_filtered_message filtered_data)); [done|].
    unfold add_filtered_message, try_except, bind.
    by destruct (db_call _ _ w) as [[[]|e] w1].
  - destruct message_ids as [|id ids].
    { simpl. rewrite new_calls_same. split; [apply same_attributes_refl|].
      split; [simpl; lia|reflexivity]. }
    apply (Hcall _ (DatabaseManager.MarkMessagesProcessed (id :: ids))
             (DatabaseManager.mark_messages_processed (id :: ids))); [done|].
    unfold mark_messages_processed, try_except.
    by destruct (db_call _ _ w) as [[[]|e] w1].
  - apply (Hcall _ (DatabaseManager.GetFilteredMessagesForLearning limit)
             (DatabaseManager.get_filtered_messages_for_learning limit)); [done|].
    unfold get_filtered_messages_for_learning, try_except, bind.
    by destruct (db_call _ _ w) as [[l|e] w1].
  - apply (Hcall _ (DatabaseManager.GetRecentFilteredMessages group_id limit)
             (DatabaseManager.get_recent_filtered_messages group_id limit)); [done|].
    unfold get_recent_filtered_messages, try_except, bind.
    by destruct (db_call _ _ w) as [[l|e] w1].
  - apply (Hcall _ (DatabaseManager.CreateLearningBatch batch_name)
             (DatabaseManager.create_learning_batch batch_name)); [done|].
    unfold create_learning_batch, try_except, bind.
    by destruct (db_call _ _ w) as [[id|e] w1].
  - apply (Hcall _ (DatabaseManager.UpdateLearningBatch batch_id kwargs)
             (DatabaseManager.update_learning_batch batch_id kwargs)); [done|].
    unfold update_learning_batch, try_except.
    by destruct (db_call _ _ w) as [[[]|e] w1].
Qed.

(** *** The calls that flush first *)

(** X8.  [get_statistics], [get_recent_filtered_messages] and [save_state]
    never raise, whatever the storage does. *)
Theorem three_operations_never_raise w group_id limit :
  (exists statistics, (get_statistics w).1 = Return statistics) /\
  (exists messages, (get_recent_filtered_messages group_id limit w).1 = Return messages) /\
  (save_state w).1 = Return tt.
Proof.
  split; [|split].
  - destruct (get_statistics_spec w) as (_ & st & Hst & _). by exists st.
  - unfold get_recent_filtered_messages, try_except, bind.
    destruct (db_call _ _ w) as [[l|e] w1]; by eexists.
  - unfold save_state, try_except.
    by destruct (_flush_message_cache w) as [[[]|e] w1].
Qed.

(** X11.  [get_statistics] returns the empty mapping exactly when a storage
    call it made raised.  Any other result has [cache_size] 0, the buffer
    being empty after the call, and has the other keys as the storage
    reported them. *)
Theorem empty_statistics_iff_storage_fault w :
  ((get_statistics w).1 = Return ∅ <-> storage_fault_in get_statistics w) /\
  forall statistics,
    (get_statistics w).1 = Return statistics ->
    statistics <> ∅ ->
    _message_cache (get_statistics w).2 = [] /\
    exists reported,
      (DatabaseManager.get_messages_statistics
         (database_manager (_flush_message_cache w).2)).1 = Return reported /\
      statistics = <["cache_size" := VInt 0]> reported.
Proof.
  destruct (flush_shape w) as (_ & evs & Hcalls & _ & Hres).
  pose proof (flush_ok_empties w) as Hempty.
  unfold storage_fault_in, get_statistics, try_except, bind.
  destruct (_flush_message_cache w) as [r w1] eqn:Ef. simpl in *.
  assert (Hcase : (r = Return tt /\ Forall ev_ok evs) \/
                  ((exists text, r = Raise (DataStorageError text)) /\
                   Exists (fun ev => ev_error ev <> None) evs)).
  { destruct Hres as [(-> & [= -> ->])|[(-> & Hok & _)|(Hr & Hex & _)]].
    - left. by split.
    - left. by split.
    - right. by split. }
  destruct Hcase as [(-> & Hok)|([text ->] & Hex)].
  - destruct (db_call_spec DatabaseManager.GetMessagesStatistics
                DatabaseManager.get_messages_statistics w1)
      as ((Hcache & _) & Hr & _ & Hc1).
    destruct (db_call _ _ w1) as [[st|e] w2]; simpl in *.
    + assert (Hc2 : calls w2 = calls w ++ (evs ++ [ok DatabaseManager.GetMessagesStatistics])).
      { by rewrite Hc1, Hcalls, app_assoc. }
      rewrite (new_calls_app _ _ _ Hc2), Hcache, Hempty by done. simpl.
      split.
      * split.
        -- intros [= Hst]. apply (f_equal (fun m => m !! "cache_size")) in Hst.
           rewrite lookup_insert_eq, lookup_empty in Hst. discriminate.
        -- intros Hex. exfalso.
           apply (Forall_ok_not_Exists_error
                    (evs ++ [ok DatabaseManager.GetMessagesStatistics])); [|exact Hex].
           apply Forall_app. split; [exact Hok|]. by repeat constructor.
      * intros statistics [= <-] _. split; [reflexivity|]. by exists st.
    + assert (Hc2 : calls w2 = calls w ++ (evs ++
                [Event DatabaseManager.GetMessagesStatistics (Some e)])).
      { by rewrite Hc1, Hcalls, app_assoc. }
      rewrite (new_calls_app _ _ _ Hc2). split.
      * split; [|done]. intros _. apply Exists_app. right.
        by apply Exists_cons_hd.
      * intros statistics [= <-] Hne. done.
  - simpl. rewrite (new_calls_app _ _ _ Hcalls). split.
    + by split.
    + intros statistics [= <-] Hne. done.
Qed.

(** X9.  What [export_learning_data] returns is what the storage exported
    with the key [config] set to the configuration of the service, in place
    of any [config] entry of the storage; the buffer is empty afterwards. *)
Theorem export_carries_config w learning_data :
  (export_learning_data w).1 = Return learning_data ->
  _message_cache (export_learning_data w).2 = [] /\
  learning_data !! "config" = Some (VDict (config w)) /\
  exists exported,
    (DatabaseManager.export_messages_learning_data
       (database_manager (_flush_message_cache w).2)).1 = Return exported /\
    learning_data = <["config" := VDict (config w)]> exported /\
    forall key, key <> "config" -> learning_data !! key = exported !! key.
Proof.
  destruct (flush_shape w) as ((_ & _ & Hcfg & _) & _).
  pose proof (flush_ok_empties w) as Hempty.
  unfold export_learning_data, try_except, bind.
  destruct (_flush_message_cache w) as [[[]|e] w1]; simpl in *; [|done].
  destruct (db_call_spec DatabaseManager.ExportMessagesLearningData
              DatabaseManager.export_messages_learning_data w1)
    as ((Hcache & _ & _ & _ & Hcfg1 & _) & Hr & _).
  destruct (db_call _ _ w1) as [[data|e] w2]; simpl in *; [|done].
  intros [= <-]. rewrite Hcache, Hempty, Hcfg1, Hcfg by done.
  split; [reflexivity|]. split; [apply lookup_insert_eq|].
  exists data. split; [done|]. split; [reflexivity|].
  intros key Hne. by apply lookup_insert_ne.
Qed.

(** X10.  [clear_all_data] writes the buffered messages before it clears
    the storage: when it returns, the calls it made are the writes of the
    buffer followed by the clearing call, and the buffer is empty.  When a
    write of the flush raises, it raises [DataStorageError] without calling
    the storage to clear anything, and the buffer is kept. *)
Theorem clear_all_data_flushes_then_clears w :
  let w' := (clear_all_data w).2 in
  ((clear_all_data w).1 = Return tt ->
   _message_cache w' = [] /\
   new_calls w w' =
     map ok (map DatabaseManager.SaveRawMessage (_message_cache w)) ++
     [ok DatabaseManager.ClearAllMessagesData]) /\
  (storage_fault_in _flush_message_cache w ->
   raises_DataStorageError clear_all_data w /\
   _message_cache w' = _message_cache w /\
   Forall (fun ev => ev_call ev <> DatabaseManager.ClearAllMessagesData)
          (new_calls w w')).
Proof.
  cbv zeta. destruct (flush_shape w) as (_ & evs & Hcalls & Hm & Hres).
  unfold storage_fault_in, raises_DataStorageError, clear_all_data, try_except, bind.
  destruct (_flush_message_cache w) as [r w1]. simpl in *.
  rewrite (new_calls_app _ _ _ Hcalls).
  assert (Hsaves : Forall (fun ev => ev_call ev <> DatabaseManager.ClearAllMessagesData) evs).
  { clear Hres Hcalls. revert Hm. generalize (_message_cache w).
    induction evs as [|[c err] evs IH]; intros l Hm; [constructor|].
    destruct l as [|m l]; [done|].
    simpl in Hm. injection Hm as -> Hm. constructor; [done|by eapply IH]. }
  assert (Hcase : (r = Return tt /\ Forall ev_ok evs) \/
                  ((exists text, r = Raise (DataStorageError text)) /\
                   Exists (fun ev => ev_error ev <> None) evs /\
                   _message_cache w1 = _message_cache w)).
  { destruct Hres as [(-> & [= -> ->])|[(-> & Hok & _)|(Hr & Hex & Hc & _)]].
    - left. by split.
    - left. by split.
    - right. by split. }
  destruct Hcase as [(-> & Hok)|([text ->] & Hex & Hcache)].
  - destruct (db_call_spec DatabaseManager.ClearAllMessagesData
                DatabaseManager.clear_all_messages_data w1) as (_ & _ & _ & Hc1).
    split.
    + destruct (db_call _ _ w1) as [[[]|e] w2]; simpl in *; [|done].
      intros _. split; [reflexivity|].
      apply new_calls_app. rewrite Hc1, Hcalls, (ok_events _ _ Hm Hok).
      by rewrite <- app_assoc.
    + intros Hex. destruct (Forall_ok_not_Exists_error _ Hok Hex).
  - simpl. split; [done|]. intros _.
    split; [by eexists|]. split; [exact Hcache|].
    by rewrite (new_calls_app _ _ _ Hcalls).
Qed.

(** *** A call that overlaps a flush *)

(** X13.  The flush clears the buffer as it is when the flush is resumed,
    not as it was when the writes were issued.  So when [collect_message]
    runs for a complete message while a flush of a non-empty buffer is
    suspended at its [await] (and neither the size limit nor the interval
    makes that call flush itself), and the writes of the flush all return,
    then both calls end normally, [collect_message] with [True], and yet the
    only storage calls made are the writes of the old buffer and the buffer
    is empty: the message that was just accepted is neither written nor
    buffered.  Without an overlapping call the split flush is
    [_flush_message_cache]. *)
Theorem message_collected_during_flush_is_lost w message_data :
  _message_cache w <> [] ->
  missing_field message_data = None ->
  ~ size_reached w message_data ->
  ~ interval_elapsed w ->
  let w' := (overlapped (collect_message message_data) w).2 in
  Forall ev_ok (new_calls w w') ->
  (overlapped (collect_message message_data) w).1 = (Return tt, Return true) /\
  new_calls w w' = map ok (map DatabaseManager.SaveRawMessage (_message_cache w)) /\
  _message_cache w' = [] /\
  (message_data ∉ _message_cache w ->
   (message_data ∉ _message_cache w') /\ (message_data ∉ saved (new_calls w w'))) /\
  overlapped (ret tt) w =
    (((_flush_message_cache w).1, Return tt), (_flush_message_cache w).2).
Proof.
  intros Hne Hv Hsize Htime. cbv zeta.
  assert (Hsplit : overlapped (ret tt) w =
            (((_flush_message_cache w).1, Return tt), (_flush_message_cache w).2)).
  { unfold overlapped. rewrite (flush_unfold w Hne).
    destruct (gather _ w) as [[l|e] w1]; reflexivity. }
  rewrite Hsplit. clear Hsplit. unfold overlapped.
  destruct (gather_save_spec (_message_cache w) w) as (Ha & evs & Hc & Hm & Hres).
  destruct (gather (map save (_message_cache w)) w) as [r w1]. simpl in Ha, Hc, Hres.
  destruct Ha as (Hcache1 & Hlimit1 & Hlast1 & Hint1 & _ & Hclock1 & Hticks1).
  destruct (collect_spec w1 message_data Hv)
    as (_ & [(_ & Hr & Hcache2 & Hc2 & _)|([Hs|Ht] & _)]).
  2: { exfalso. apply Hsize. unfold size_reached in *. by rewrite Hcache1, Hlimit1 in Hs. }
  2: { exfalso. apply Htime. unfold interval_elapsed in *.
       by rewrite Hclock1, Hticks1, Hlast1, Hint1 in Ht. }
  destruct (collect_message message_data w1) as [a w2]. simpl in Hr, Hcache2, Hc2. subst a.
  destruct Hres as [([l ->] & Hok)|([e ->] & Hex)]; simpl.
  - intros _. rewrite (new_calls_app w _ evs) by (simpl; by rewrite Hc2, Hc).
    rewrite (ok_events _ _ Hm Hok).
    split; [reflexivity|]. split; [reflexivity|]. split; [reflexivity|].
    split; [|reflexivity]. intros Hnotin. split; [apply not_elem_of_nil|].
    rewrite <- (ok_events _ _ Hm Hok), (saved_writes _ _ Hm). exact Hnotin.
  - rewrite (new_calls_app w _ evs) by (simpl; by rewrite Hc2, Hc).
    intros Hok. destruct (Forall_ok_not_Exists_error _ Hok Hex).
Qed.

End CollectorOperations.

(** * The enumerations *)

(** X12.  In each of [ServiceLifecycle], [LearningStrategyType],
    [AnalysisType] and [EventType] the values of the members are pairwise
    distinct: looking a member up by its value gives that member back, and
    a value that is found is the value of the member found. *)
Theorem enum_lookup_by_value :
  (forall m, Interfaces.of_value Interfaces.ServiceLifecycle_members
               Interfaces.ServiceLifecycle_value
               (Interfaces.ServiceLifecycle_value m) = Some m) /\
  (forall m, Interfaces.of_value Interfaces.LearningStrategyType_members
               Interfaces.LearningStrategyType_value
               (Interfaces.LearningStrategyType_value m) = Some m) /\
  (forall m, Interfaces.of_value Interfaces.AnalysisType_members
               Interfaces.AnalysisType_value
               (Interfaces.AnalysisType_value m) = Some m) /\
  (forall m, Interfaces.of_value Interfaces.EventType_members
               Interfaces.EventType_value
               (Interfaces.EventType_value m) = Some m) /\
  (forall E (members : list E) (value : E -> string) v m,
     Interfaces.of_value members value v = Some m -> value m = v /\ m ∈ members).
Proof.
  split; [|split; [|split; [|split]]]; try (intros m; destruct m; reflexivity).
  intros E members value v m Hfound.
  unfold Interfaces.of_value in Hfound. apply find_some in Hfound as [Hin Heq].
  split; [by apply String.eqb_eq in Heq|by apply list_elem_of_In].
Qed.

(** * The further properties at concrete worlds *)

(** With its budget used up the reference storage is down for good. *)
Lemma memory_store_outage :
  @outage MemoryStore.t _ (fun d => MemoryStore.budget d = Some 0%nat).
Proof.
  intros msg d Hd. exists MemoryStore.unavailable, d. split; [|exact Hd].
  simpl. unfold MemoryStore.guarded. by rewrite Hd.
Qed.

Lemma collect_raise_keeps_message_witness :
  _message_cache (collect_message (message 1) (service (Some 0%nat) minutes)).2
    = [message 1].
Proof.
  edestruct (collect_raise_keeps_message (service (Some 0%nat) minutes) (message 1))
    as (_ & _ & Hcache & _); [reflexivity|exact Hcache].
Defined.

Lemma buffer_grows_during_outage_witness :
  _message_cache (collect_all (messages 3) (flaky 0)) = messages 3.
Proof.
  destruct (buffer_grows_during_outage
              (fun d => MemoryStore.budget d = Some 0%nat) (messages 3) (flaky 0))
    as (Hcache & _).
  - exact memory_store_outage.
  - reflexivity.
  - apply messages_complete.
  - exact Hcache.
Defined.

Lemma messages_written_exactly_once_witness :
  let ops := [OpCollectMessage (message 1); OpGetStatistics;
              OpCollectMessage ∅; OpCollectMessage (message 2)] in
  (saved (new_calls steady (perform_all ops steady)) ++
     _message_cache (perform_all ops steady)) ≡ₚ [message 1; message 2].
Proof.
  intros ops.
  apply (messages_written_exactly_once ops steady).
  vm_compute.
  repeat (apply List.Forall_cons; [intros _; reflexivity|]). apply List.Forall_nil.
Defined.

Lemma accepted_message_buffered_or_written_witness :
  let ops := [OpCollectMessage (message 1); OpGetUnprocessedMessages None] in
  message 1 ∈ _message_cache (perform_all ops (flaky 0)) \/
  ok (DatabaseManager.SaveRawMessage (message 1))
    ∈ new_calls (flaky 0) (perform_all ops (flaky 0)).
Proof.
  intros ops.
  apply (accepted_message_buffered_or_written ops (flaky 0) (message 1)).
  apply elem_of_app. right. apply list_elem_of_here.
Defined.

Lemma buffer_below_limit_under_any_calls_witness :
  let ops := [OpCollectMessage (message 1); OpSaveState; OpClearAllData;
              OpCollectMessage (message 2)] in
  Z.of_nat (length (_message_cache (perform_all ops steady))) < 100.
Proof.
  intros ops.
  apply (buffer_below_limit_under_any_calls ∅ (MemoryStore.empty None) still ops).
  vm_compute.
  repeat (apply List.Forall_cons; [intros _; reflexivity|]). apply List.Forall_nil.
Defined.

Lemma non_flushing_calls_leave_buffer_witness :
  let w := (collect_message (message 1) steady).2 in
  same_attributes w (perform (OpGetRecentFilteredMessages "g" 5) w).
Proof.
  intros w.
  destruct (non_flushing_calls_leave_buffer (OpGetRecentFilteredMessages "g" 5) w)
    as (Ha & _); [reflexivity|exact Ha].
Defined.

Lemma empty_statistics_iff_storage_fault_witness :
  (get_statistics (flaky 0)).1 = Return ∅ /\
  _message_cache (get_statistics (collect_all [message 1] steady)).2 = [].
Proof.
  split.
  - apply (proj1 (empty_statistics_iff_storage_fault (flaky 0))).
    unfold storage_fault_in. vm_compute. apply Exists_cons_hd. discriminate.
  - destruct (steady_run_ok [message 1]) as (Hhealthy & _).
    set (w := collect_all [message 1] steady) in *. clearbody w.
    destruct (healthy_statistics w Hhealthy) as (st & Hst & Hsize).
    destruct (proj2 (empty_statistics_iff_storage_fault w) st Hst) as (Hcache & _);
      [|exact Hcache].
    intros ->. by rewrite lookup_empty in Hsize.
Defined.

(** On a storage that never fails [export_learning_data] returns. *)
Lemma healthy_export (w : @World MemoryStore.t) :
  MemoryStore.budget (database_manager w) = None /\
  MemoryStore.processed (database_manager w) = [] ->
  exists learning_data, (export_learning_data w).1 = Return learning_data.
Proof.
  intros Hh.
  destruct (flush_faithful _ _ memory_store_faithful w Hh) as (Hok & (Hb & _) & _).
  unfold export_learning_data, try_except, bind.
  destruct (_flush_message_cache w) as [r w1]. simpl in *. subst r.
  destruct (db_call_spec DatabaseManager.ExportMessagesLearningData
              DatabaseManager.export_messages_learning_data w1) as (_ & Hr & _).
  simpl in Hr. unfold MemoryStore.guarded in Hr. rewrite Hb in Hr. simpl in Hr.
  destruct (db_call _ _ w1) as [r w2]. simpl in *. subst r. simpl. by eexists.
Qed.

Lemma export_carries_config_witness :
  let w := collect_all [message 1] steady in
  exists learning_data,
    (export_learning_data w).1 = Return learning_data /\
    learning_data !! "config" = Some (VDict (config w)).
Proof.
  intros w.
  destruct (steady_run_ok [message 1]) as (Hhealthy & _).
  fold w in Hhealthy. clearbody w.
  destruct (healthy_export w Hhealthy) as (ld & Hld).
  exists ld. split; [exact Hld|].
  by destruct (export_carries_config w ld Hld) as (_ & Hcfg & _).
Defined.

Lemma clear_all_data_flushes_then_clears_witness :
  (let w := (collect_message (message 1) steady).2 in
   new_calls w (clear_all_data w).2 =
     [ok (DatabaseManager.SaveRawMessage (message 1));
      ok DatabaseManager.ClearAllMessagesData]) /\
  (let w := (collect_message (message 1) (flaky 0)).2 in
   _message_cache (clear_all_data w).2 = [message 1]).
Proof.
  split.
  - intros w. destruct (clear_all_data_flushes_then_clears w) as (Hok & _).
    destruct Hok as (_ & Hcalls); [reflexivity|exact Hcalls].
  - intros w. destruct (clear_all_data_flushes_then_clears w) as (_ & Hfail).
    destruct Hfail as (_ & Hcache & _); [|exact Hcache].
    unfold storage_fault_in. vm_compute. apply Exists_cons_hd. discriminate.
Defined.

Lemma enum_lookup_by_value_witness :
  Interfaces.ServiceLifecycle_value Interfaces.RUNNING = "running" /\
  Interfaces.RUNNING ∈ Interfaces.ServiceLifecycle_members.
Proof.
  destruct enum_lookup_by_value as (_ & _ & _ & _ & Hfound).
  apply (Hfound _ Interfaces.ServiceLifecycle_members Interfaces.ServiceLifecycle_value
           "running" Interfaces.RUNNING).
  reflexivity.
Defined.

Lemma message_collected_during_flush_is_lost_witness :
  let w := (collect_message (message 1) steady).2 in
  let w' := (overlapped (collect_message (message 2)) w).2 in
  (overlapped (collect_message (message 2)) w).1 = (Return tt, Return true) /\
  new_calls w w' = [ok (DatabaseManager.SaveRawMessage (message 1))] /\
  _message_cache w' = [] /\
  (get_unprocessed_messages None w').1 = Return [message 1].
Proof.
  intros w w'.
  destruct (message_collected_during_flush_is_lost w (message 2))
    as (Hr & Hcalls & Hcache & _).
  - discriminate.
  - reflexivity.
  - intros Hsize. vm_compute in Hsize. by apply Hsize.
  - intros Htime. vm_compute in Htime. discriminate.
  - vm_compute. apply List.Forall_cons; [reflexivity|apply List.Forall_nil].
  - split; [exact Hr|]. split; [exact Hcalls|]. split; [exact Hcache|reflexivity].
Defined.

